(** * NexussAIWrapper: memory store, attention budgeter, skill dispatcher and
    heartbeat scheduler, embedded in Rocq.

    Modelling conventions.
    - Python [str] values are modelled as ASCII strings ([String.string]); [len]
      is [String.length].  [str.lower], [str.upper] and [str.split] act on the
      ASCII characters as CPython does.
    - A Python [dict] is an insertion-ordered association list: [dict_get] finds
      a key, [dict_set] overwrites the value of a present key in place and
      appends a new key at the end (CPython's ordering).
    - A [collections.deque] with [maxlen] is a list, oldest first.
    - Python floats used only for ordering ([importance], elapsed times) are
      rationals [Q].
    - A Python [int] is a [Z]; [//] on a non-negative divisor is [Z.div]
      (both round towards minus infinity).
    - An exception is a value of [PyExc]: its class is either a subclass of
      [Exception] or one of the classes that derive from [BaseException] only
      ([SystemExit], [KeyboardInterrupt], [GeneratorExit]). *)

From Stdlib Require Import List String Ascii ZArith QArith Bool Lia Sorted.
Import ListNotations.

Local Open Scope Z_scope.

(** ** config.py *)

Definition HEARTBEAT_INTERVAL_SECONDS : Z := 60.
Definition HEARTBEAT_MAX_MISSED : Z := 3.
Definition CORE_MEMORY_LIMIT : nat := 2048.
Definition RECALL_MEMORY_LIMIT : nat := 100.
Definition ARCHIVAL_SEARCH_LIMIT : Z := 50.
Definition ATTENTION_WINDOW_TOKENS : Z := 4096.

(** ** Python helpers *)

Definition chr (n : nat) : string := String (ascii_of_nat n) EmptyString.
Definition nl : string := chr 10.

Definition sapp (a b : string) : string := String.append a b.
Infix "+++" := sapp (right associativity, at level 60).

(** [sep.join(parts)] *)
Definition py_join (sep : string) (parts : list string) : string :=
  String.concat sep parts.

Definition is_upper_ascii (c : ascii) : bool :=
  let n := nat_of_ascii c in (Nat.leb 65 n && Nat.leb n 90)%bool.
Definition is_lower_ascii (c : ascii) : bool :=
  let n := nat_of_ascii c in (Nat.leb 97 n && Nat.leb n 122)%bool.

Fixpoint py_lower (s : string) : string :=
  match s with
  | EmptyString => EmptyString
  | String c r =>
      String (if is_upper_ascii c then ascii_of_nat (nat_of_ascii c + 32) else c)
             (py_lower r)
  end.

Fixpoint py_upper (s : string) : string :=
  match s with
  | EmptyString => EmptyString
  | String c r =>
      String (if is_lower_ascii c then ascii_of_nat (nat_of_ascii c - 32) else c)
             (py_upper r)
  end.

(** [str.isspace] on ASCII: tab, newline, vertical tab, form feed, carriage
    return, the separators 0x1c..0x1f and space. *)
Definition py_isspace (c : ascii) : bool :=
  let n := nat_of_ascii c in
  ((Nat.leb 9 n && Nat.leb n 13) || (Nat.leb 28 n && Nat.leb n 32))%bool.

(** [s.split()] with no separator: runs of whitespace separate words, and no
    empty word is produced.  [cur] is the word being read, reversed. *)
Fixpoint split_go (s : string) (cur : list ascii) : list string :=
  match s with
  | EmptyString =>
      match cur with [] => [] | _ => [string_of_list_ascii (rev cur)] end
  | String c r =>
      if py_isspace c then
        match cur with
        | [] => split_go r []
        | _ => string_of_list_ascii (rev cur) :: split_go r []
        end
      else split_go r (c :: cur)
  end.
Definition py_split (s : string) : list string := split_go s [].

Fixpoint str_prefix (p s : string) : bool :=
  match p, s with
  | EmptyString, _ => true
  | String a p', String b s' => (Ascii.eqb a b && str_prefix p' s')%bool
  | String _ _, EmptyString => false
  end.

(** [w in s] for strings: [w] occurs in [s] as a substring. *)
Fixpoint str_contains (s w : string) : bool :=
  (str_prefix w s ||
   match s with EmptyString => false | String _ s' => str_contains s' w end)%bool.

(** The index arithmetic of a Python slice bound [xs[:stop]] or [xs[start:]]. *)
Definition py_slice_index (i : Z) (len : nat) : nat :=
  let l := Z.of_nat len in
  Z.to_nat (if i <? 0 then Z.max 0 (i + l) else Z.min i l).

(** [xs[:stop]] *)
Definition py_take {A} (stop : Z) (xs : list A) : list A :=
  firstn (py_slice_index stop (List.length xs)) xs.
(** [xs[start:]] *)
Definition py_drop {A} (start : Z) (xs : list A) : list A :=
  skipn (py_slice_index start (List.length xs)) xs.

Definition str_take (stop : Z) (s : string) : string :=
  string_of_list_ascii (py_take stop (list_ascii_of_string s)).

(** Dictionaries. *)
Fixpoint dict_get {V} (k : string) (d : list (string * V)) : option V :=
  match d with
  | [] => None
  | (k', v) :: r => if String.eqb k k' then Some v else dict_get k r
  end.

Fixpoint dict_set {V} (k : string) (v : V) (d : list (string * V)) : list (string * V) :=
  match d with
  | [] => [(k, v)]
  | (k', v') :: r => if String.eqb k k' then (k', v) :: r else (k', v') :: dict_set k v r
  end.

(** A [deque(maxlen=maxlen)]: [append] adds on the right and, when the length
    now exceeds [maxlen], pops the leftmost item. *)
Definition deque_append {A} (maxlen : nat) (xs : list A) (x : A) : list A :=
  let ys := xs ++ [x] in
  if Nat.ltb maxlen (List.length ys) then tl ys else ys.

(** ** Utils.py *)

(** [estimate_tokens(text) = len(text) // 4] *)
Definition estimate_tokens (text : string) : Z := Z.of_nat (String.length text) / 4.

(** [truncate(text, max_len)] *)
Definition truncate (text : string) (max_len : Z) : string :=
  if max_len <? Z.of_nat (String.length text)
  then str_take (max_len - 3) text +++ "..."
  else text.

(** ** enums_and_dataclasses.py *)

Inductive MemoryType := CORE | RECALL | ARCHIVAL.

Record MemoryBlock := mkBlock {
  id : string;
  content : string;
  memory_type : MemoryType;
  created_at : string;
  updated_at : string;
  importance : Q;
  access_count : Z;
  tags : list string
}.

Definition set_content (b : MemoryBlock) (c now : string) : MemoryBlock :=
  mkBlock (id b) c (memory_type b) (created_at b) now (importance b) (access_count b) (tags b).

Definition bump_access (b : MemoryBlock) : MemoryBlock :=
  mkBlock (id b) (content b) (memory_type b) (created_at b) (updated_at b)
    (importance b) (access_count b + 1) (tags b).

Inductive Role := user | assistant | system | tool.

(** An ollama [Message]: a role and an optional text content. *)
Record Message := mkMessage { role : Role; msg_content : option string }.

Definition content_or_empty (m : Message) : string :=
  match msg_content m with Some c => c | None => "" end.

(** ** memory_system.py: MemoryManager *)

Record MemoryManager := mkMemory {
  agent_id : string;
  core : list (string * MemoryBlock);
  recall : list Message;
  archival_index : list (string * MemoryBlock)
}.

Section Core.

(** [hash_content]: the first 12 hex digits of a SHA-256 digest. *)
Variable hash_content : string -> string.

Definition block_len (kb : string * MemoryBlock) : nat := String.length (content (snd kb)).

Definition core_total (c : list (string * MemoryBlock)) : nat :=
  list_sum (map block_len c).

(** [sum(len(b.content) for k, b in self.core.items() if k != key)] *)
Definition others_len (c : list (string * MemoryBlock)) (key : string) : nat :=
  list_sum (map block_len (filter (fun kb => negb (String.eqb (fst kb) key)) c)).

(** [update_core_memory(key, content)]; [now] is the value of [timestamp()].
    The write to disk ([_save_core_memory]) is not part of the in-memory state. *)
Definition update_core_memory (now : string) (c : list (string * MemoryBlock))
    (key text : string) : bool * list (string * MemoryBlock) :=
  if Nat.ltb CORE_MEMORY_LIMIT (others_len c key + String.length text) then (false, c)
  else
    match dict_get key c with
    | Some b => (true, dict_set key (set_content b text now) c)
    | None =>
        (true, dict_set key
                 (mkBlock ("core_" +++ key +++ "_" +++ hash_content text) text CORE
                    now now 1%Q 0 []) c)
    end.

(** A sequence of calls [(now, key, content)], each on the store left by the
    previous one. *)
Fixpoint run_core_updates (calls : list (string * string * string))
    (c : list (string * MemoryBlock)) : list (string * MemoryBlock) :=
  match calls with
  | [] => c
  | (now, key, text) :: rest => run_core_updates rest (snd (update_core_memory now c key text))
  end.

End Core.


(** [add_to_recall(message)]: [self.recall] is [deque(maxlen=RECALL_MEMORY_LIMIT)]. *)
Definition add_to_recall (mm : MemoryManager) (m : Message) : MemoryManager :=
  mkMemory (agent_id mm) (core mm) (deque_append RECALL_MEMORY_LIMIT (recall mm) m)
    (archival_index mm).

(** [get_recall_messages(limit=None)]: [msgs[-limit:] if limit else msgs]. *)
Definition get_recall_messages (mm : MemoryManager) (limit : option Z) : list Message :=
  let msgs := recall mm in
  match limit with
  | Some n => if Z.eqb n 0 then msgs else py_drop (- n) msgs
  | None => msgs
  end.

(** [get_core_memory()]: the labelled core sections, joined by blank lines;
    every core block's [access_count] is incremented. *)
Definition core_part (kb : string * MemoryBlock) : string :=
  "[" +++ py_upper (fst kb) +++ "]" +++ nl +++ content (snd kb).

Definition get_core_memory (mm : MemoryManager) : string * MemoryManager :=
  (py_join (nl +++ nl) (map core_part (core mm)),
   mkMemory (agent_id mm) (map (fun kb => (fst kb, bump_access (snd kb))) (core mm))
     (recall mm) (archival_index mm)).

(** [query_words = set(query.lower().split())]: a duplicate-free list; the
    iteration order of the set does not matter to the count below. *)
Definition query_words (query : string) : list string :=
  nodup string_dec (py_split (py_lower query)).

(** [sum(1 for w in query_words if w in content_lower)] *)
Definition match_score (words : list string) (content_lower : string) : nat :=
  List.length (filter (fun w => str_contains content_lower w) words).

(** The tag test: [if tags and not any(t in block.tags for t in tags): continue].
    An empty list, like [None], is falsy and filters nothing. *)
Definition tag_ok (tag_filter : option (list string)) (b : MemoryBlock) : bool :=
  match tag_filter with
  | Some ((_ :: _) as ts) => existsb (fun t => existsb (String.eqb t) (tags b)) ts
  | _ => true
  end.

(** The loop over [self.archival_index.values()]: returns the index after the
    [access_count] increments and the [(score, block)] results, in order. *)
Fixpoint search_loop (words : list string) (tag_filter : option (list string))
    (blocks : list (string * MemoryBlock))
    : list (string * MemoryBlock) * list (nat * MemoryBlock) :=
  match blocks with
  | [] => ([], [])
  | (k, b) :: rest =>
      let '(rest', results) := search_loop words tag_filter rest in
      if negb (tag_ok tag_filter b) then ((k, b) :: rest', results)
      else
        let score := match_score words (py_lower (content b)) in
        if Nat.ltb 0 score then ((k, bump_access b) :: rest', (score, bump_access b) :: results)
        else ((k, b) :: rest', results)
  end.

Definition Qltb (x y : Q) : bool := negb (Qle_bool y x).

(** Tuple comparison [(s1, i1) < (s2, i2)] on the sort key [(score, importance)]. *)
Definition key_lt (a b : nat * MemoryBlock) : bool :=
  (Nat.ltb (fst a) (fst b) ||
   (Nat.eqb (fst a) (fst b) && Qltb (importance (snd a)) (importance (snd b))))%bool.

(** [results.sort(key=..., reverse=True)]: a stable sort into descending key
    order (equal keys keep their order), here as insertion sort. *)
Fixpoint insert_desc (x : nat * MemoryBlock) (l : list (nat * MemoryBlock)) :=
  match l with
  | [] => [x]
  | y :: r => if key_lt y x then x :: y :: r else y :: insert_desc x r
  end.

Definition sort_desc (l : list (nat * MemoryBlock)) : list (nat * MemoryBlock) :=
  fold_left (fun acc x => insert_desc x acc) l [].

(** [search_archival(query, limit, tags)]: the matching blocks, best first,
    and the store after the [access_count] increments. *)
Definition search_archival (mm : MemoryManager) (query : string) (limit : Z)
    (tag_filter : option (list string)) : list MemoryBlock * MemoryManager :=
  let words := query_words query in
  let '(arch', results) := search_loop words tag_filter (archival_index mm) in
  (map snd (py_take limit (sort_desc results)),
   mkMemory (agent_id mm) (core mm) (recall mm) arch').

(** ** attention_mechanism.py: AttentionManager *)

Record AttentionContext := mkContext {
  total_tokens : Z;
  core_tokens : Z;
  recall_tokens : Z;
  system_tokens : Z;
  available_tokens : Z;
  focus_topic : option string;
  priority_memories : list string
}.

(** The loop [for msg in reversed(recall_messages)] of [build_context]:
    [msgs] is the buffer newest first; each selected message is inserted at
    the front of [recall_to_add]; the loop breaks at the first message that
    does not fit. *)
Fixpoint recall_fill (remaining : Z) (msgs : list Message)
    (recall_to_add : list Message) (recall_tokens : Z) : list Message * Z :=
  match msgs with
  | [] => (recall_to_add, recall_tokens)
  | msg :: rest =>
      let msg_tokens := estimate_tokens (content_or_empty msg) in
      if remaining <? recall_tokens + msg_tokens then (recall_to_add, recall_tokens)
      else recall_fill remaining rest (msg :: recall_to_add) (recall_tokens + msg_tokens)
  end.

Definition full_system_of (system_prompt core_content : string) : string :=
  system_prompt +++ nl +++ nl +++ "### CORE MEMORY ###" +++ nl +++ core_content.

(** The archival excerpt formatted from the search results. *)
Definition archival_content_of (archival_results : list MemoryBlock) : string :=
  let archival_parts := map (fun b => "- " +++ truncate (content b) 200) archival_results in
  nl +++ "### RELEVANT MEMORIES ###" +++ nl +++ py_join nl archival_parts.

(** [build_context(system_prompt, focus_query)] with [self.max_tokens =
    max_tokens]: the messages, the new [self.context], and the memory store
    after the calls to [get_core_memory] and [search_archival]. *)
Definition build_context (max_tokens : Z) (mm : MemoryManager) (system_prompt : string)
    (focus_query : option string) : list Message * AttentionContext * MemoryManager :=
  let system_tokens := estimate_tokens system_prompt in
  let '(core_content, mm1) := get_core_memory mm in
  let core_tokens := estimate_tokens core_content in
  let full_system := full_system_of system_prompt core_content in
  let used_tokens := system_tokens + core_tokens in
  let remaining := max_tokens - used_tokens - 500 in
  let '(sys_content, used_tokens, remaining, mm2) :=
    match focus_query with
    | Some q =>
        if String.eqb q "" then (full_system, used_tokens, remaining, mm1)
        else
          let '(archival_results, mm2) := search_archival mm1 q 5 None in
          match archival_results with
          | [] => (full_system, used_tokens, remaining, mm2)
          | _ =>
              let archival_content := archival_content_of archival_results in
              let archival_tokens := estimate_tokens archival_content in
              if archival_tokens <? remaining / 3
              then (full_system +++ nl +++ archival_content,
                    used_tokens + archival_tokens, remaining - archival_tokens, mm2)
              else (full_system, used_tokens, remaining, mm2)
          end
    | None => (full_system, used_tokens, remaining, mm1)
    end in
  let recall_messages := get_recall_messages mm2 None in
  let '(recall_to_add, recall_tokens) := recall_fill remaining (rev recall_messages) [] 0 in
  let messages := mkMessage system (Some sys_content) :: recall_to_add in
  let used_tokens := used_tokens + recall_tokens in
  let context := mkContext used_tokens core_tokens recall_tokens system_tokens
                   (max_tokens - used_tokens) focus_query [] in
  (messages, context, mm2).

(** A small store for the examples below. *)
Definition example_archive : MemoryManager :=
  mkMemory "agent" [] []
    [("a", mkBlock "a" "Foo and bar" ARCHIVAL "" "" (1#2) 0 []);
     ("b", mkBlock "b" "bar only" ARCHIVAL "" "" (3#4) 0 [])]%string.

(** The archival excerpt [build_context] considers for a focus query: [None]
    when the query is absent or empty (falsy) or the search finds nothing. *)
Definition focus_excerpt (mm : MemoryManager) (focus_query : option string) : option string :=
  match focus_query with
  | Some q =>
      if String.eqb q "" then None
      else match fst (search_archival mm q 5 None) with
           | [] => None
           | rs => Some (archival_content_of rs)
           end
  | None => None
  end.

(** Total estimated cost of a list of messages. *)
Definition sum_tokens (l : list Message) : Z :=
  fold_right (fun m acc => estimate_tokens (content_or_empty m) + acc) 0 l.

(** [sel] is what the newest-first fill selects from the buffer [R] under the
    budget [remaining]: a suffix of [R] (so in chronological order) that fits,
    and either all of [R] or such that the next older entry would overflow. *)
Definition recall_selection (remaining : Z) (R sel : list Message) : Prop :=
  exists older, R = older ++ sel /\
    (sel <> [] -> sum_tokens sel <= remaining) /\
    (older = [] \/ exists m older', older = older' ++ [m] /\
        remaining < sum_tokens sel + estimate_tokens (content_or_empty m)).

(** [n] copies of the character [c]. *)
Fixpoint srepeat (n : nat) (c : ascii) : string :=
  match n with O => EmptyString | S k => String c (srepeat k c) end.

(** A store whose two archival blocks both match ["foo"]; their excerpt costs
    66 tokens. *)
Definition floor_third_store : MemoryManager :=
  mkMemory "agent" [] []
    [("a", mkBlock "a" ("foo" +++ srepeat 197 "a") ARCHIVAL "" "" (1#2) 0 []);
     ("b", mkBlock "b" ("foo" +++ srepeat 29 "b") ARCHIVAL "" "" (1#2) 0 [])]%string.

(** A store with one core block. *)
Definition one_core_store : MemoryManager :=
  mkMemory "agent"
    [("persona", mkBlock "core_persona" "I am Nexuss." CORE "" "" 1 0 [])]%string [] [].

(** The score the search gives a block: the number of distinct query words
    found in its lowercased content. *)
Definition archival_score (query : string) (b : MemoryBlock) : nat :=
  match_score (query_words query) (py_lower (content b)).

(** The order of the result: by score descending, then importance descending. *)
Definition ranked_before (query : string) (b1 b2 : MemoryBlock) : Prop :=
  (archival_score query b2 < archival_score query b1)%nat \/
  (archival_score query b2 = archival_score query b1 /\ (importance b2 <= importance b1)%Q).

(** Whether [build_context] with this focus query touches an archival block:
    the query is non-empty and the block has at least one query word. *)
Definition focus_matches (focus_query : option string) (b : MemoryBlock) : bool :=
  match focus_query with
  | Some q => (negb (String.eqb q "") && Nat.ltb 0 (archival_score q b))%bool
  | None => false
  end.

(** ** Exceptions and skills (skill_registry.py, skills_tools_framework.py) *)

(** Whether an exception class derives from [Exception] or only from
    [BaseException] ([SystemExit], [KeyboardInterrupt], [GeneratorExit]). *)
Inductive ExcKind := ExceptionClass | BaseExceptionOnly.

Record PyExc := mkExc { exc_name : string; exc_kind : ExcKind; exc_msg : string }.

(** [isinstance(e, Exception)]: what an [except Exception] clause catches. *)
Definition is_Exception (e : PyExc) : bool :=
  match exc_kind e with ExceptionClass => true | BaseExceptionOnly => false end.

(** A computation that returns a value or raises. *)
Inductive PyResult (A : Type) := Ok (a : A) | Raise (e : PyExc).
Arguments Ok {A} a.
Arguments Raise {A} e.

(** The Python values that go in and out of skills. *)
Inductive PyValue := VNone | VStr (s : string) | VInt (z : Z) | VBool (b : bool).

Record SkillResult := mkResult {
  success : bool;
  output : PyValue;
  error : option string;
  execution_time : Q
}.

(** A handler call ([skill.execute] on the keyword arguments) returns a [SkillResult] or raises
    (a handler whose result refuses the [execution_time] assignment is one that
    raises [AttributeError] inside the [try]). *)
Inductive HandlerOutcome := Returns (r : SkillResult) | Raises (e : PyExc).

Record Skill := mkSkill {
  skill_name : string;
  description : string;
  skill_execute : list (string * PyValue) -> HandlerOutcome
}.

(** [self._skills]: name -> skill. *)
Definition Registry := list (string * Skill).

(** [SkillRegistry.register(skill)] *)
Definition register (reg : Registry) (sk : Skill) : Registry := dict_set (skill_name sk) sk reg.

(** [SkillRegistry.execute] on a name and keyword arguments; [start] and [finish] are the
    two readings of [time.time()]. *)
Definition execute (reg : Registry) (name : string) (kwargs : list (string * PyValue))
    (start finish : Q) : PyResult SkillResult :=
  match dict_get name reg with
  | None => Ok (mkResult false VNone (Some ("Skill '" +++ name +++ "' not found")) 0)
  | Some sk =>
      match skill_execute sk kwargs with
      | Returns r => Ok (mkResult (success r) (output r) (error r) (finish - start))
      | Raises e =>
          if is_Exception e
          then Ok (mkResult false VNone (Some (exc_msg e)) (finish - start))
          else Raise e
      end
  end.

(** A skill whose handler raises [KeyboardInterrupt]. *)
Definition interrupted_skill : Skill :=
  mkSkill "interrupted" "raises KeyboardInterrupt"
    (fun _ => Raises (mkExc "KeyboardInterrupt" BaseExceptionOnly "")).

(** ** heartbeat_protocol.py: HeartbeatProtocol *)

Inductive AgentState :=
  INITIALIZING | WAITING_INPUT | HEARTBEAT | ERROR | SHUTDOWN | IDLE | THINKING | EXECUTING.

Record MemoryStats := mkStats {
  core_characters : Z; core_limit : Z; recall_messages : Z; recall_limit : Z;
  archival_blocks : Z
}.

(** [MemoryManager.get_memory_stats()] *)
Definition get_memory_stats (mm : MemoryManager) : MemoryStats :=
  mkStats (Z.of_nat (core_total (core mm))) (Z.of_nat CORE_MEMORY_LIMIT)
    (Z.of_nat (List.length (recall mm))) (Z.of_nat RECALL_MEMORY_LIMIT)
    (Z.of_nat (List.length (archival_index mm))).

Record HeartbeatEvent := mkEvent {
  beat_id : Z;
  ev_timestamp : string;
  ev_state : AgentState;
  memory_usage : MemoryStats;
  pending_tasks : Z;
  notes : string
}.

Record ToolCall := mkToolCall { tc_name : string; tc_arguments : list (string * PyValue) }.
Record ResponseMessage := mkRespMsg { resp_content : option string; tool_calls : list ToolCall }.
(** An ollama [ChatResponse]: its [message] may be missing. *)
Record ChatResponse := mkResponse { message : option ResponseMessage }.

(** The fields of a [HeartbeatProtocol] the cycle reads and writes.  The
    output queue holds [(kind, payload)] pairs; [has_thread] says whether
    [self._heartbeat_thread] is set; [attention_max_tokens] and
    [attention_context] are those of [self.attention]. *)
Record HeartbeatProtocol := mkHB {
  beat_count : Z;
  missed_beats : Z;
  hb_state : AgentState;
  last_heartbeat : option string;
  heartbeat_history : list HeartbeatEvent;
  stop_event : bool;
  heartbeat_requested : bool;
  user_input_queue : list string;
  output_queue : list (string * string);
  memory : MemoryManager;
  skills : Registry;
  is_local : bool;
  interval : Z;
  has_thread : bool;
  attention_max_tokens : Z;
  attention_context : option AttentionContext
}.

Definition set_state (hp : HeartbeatProtocol) (st : AgentState) : HeartbeatProtocol :=
  mkHB (beat_count hp) (missed_beats hp) st (last_heartbeat hp) (heartbeat_history hp)
    (stop_event hp) (heartbeat_requested hp) (user_input_queue hp) (output_queue hp)
    (memory hp) (skills hp) (is_local hp) (interval hp) (has_thread hp)
    (attention_max_tokens hp) (attention_context hp).

Definition set_memory (hp : HeartbeatProtocol) (mm : MemoryManager) : HeartbeatProtocol :=
  mkHB (beat_count hp) (missed_beats hp) (hb_state hp) (last_heartbeat hp)
    (heartbeat_history hp) (stop_event hp) (heartbeat_requested hp) (user_input_queue hp)
    (output_queue hp) mm (skills hp) (is_local hp) (interval hp) (has_thread hp)
    (attention_max_tokens hp) (attention_context hp).

Definition put_output (hp : HeartbeatProtocol) (item : string * string) : HeartbeatProtocol :=
  mkHB (beat_count hp) (missed_beats hp) (hb_state hp) (last_heartbeat hp)
    (heartbeat_history hp) (stop_event hp) (heartbeat_requested hp) (user_input_queue hp)
    (output_queue hp ++ [item]) (memory hp) (skills hp) (is_local hp) (interval hp)
    (has_thread hp) (attention_max_tokens hp) (attention_context hp).

Definition py_bool_str (b : bool) : string := if b then "True" else "False".

Definition clear_request (hp : HeartbeatProtocol) : HeartbeatProtocol :=
  mkHB (beat_count hp) (missed_beats hp) (hb_state hp) (last_heartbeat hp)
    (heartbeat_history hp) (stop_event hp) false (user_input_queue hp)
    (output_queue hp) (memory hp) (skills hp) (is_local hp) (interval hp)
    (has_thread hp) (attention_max_tokens hp) (attention_context hp).

Definition set_missed (hp : HeartbeatProtocol) (n : Z) : HeartbeatProtocol :=
  mkHB (beat_count hp) n (hb_state hp) (last_heartbeat hp)
    (heartbeat_history hp) (stop_event hp) (heartbeat_requested hp) (user_input_queue hp)
    (output_queue hp) (memory hp) (skills hp) (is_local hp) (interval hp)
    (has_thread hp) (attention_max_tokens hp) (attention_context hp).

(** The result of a cycle: it returns, or an exception escapes it; either
    way with the state reached. *)
Inductive Outcome := Done (hp : HeartbeatProtocol) | Raised (e : PyExc) (hp : HeartbeatProtocol).

(** The first part of [_execute_heartbeat] (up to the model call): either the
    early [return] of a local backend with no input, or the messages to send
    and the drained user messages. *)
Inductive Prepared :=
| NoOp (hp : HeartbeatProtocol)
| CallModel (hp : HeartbeatProtocol) (messages : list Message) (user_messages : list string).

Fixpoint last_opt {A} (l : list A) : option A :=
  match l with [] => None | [x] => Some x | _ :: r => last_opt r end.

Section Heartbeat.

(** The prompt templates ([HEARTBEAT_SYSTEM_PROMPT.format(timestamp, beat_count)],
    [LOCAL_SYSTEM_PROMPT.format(timestamp, status_block)]) and
    [_build_status_block()]: text the control flow does not inspect. *)
Variable heartbeat_prompt : string -> Z -> string.
Variable local_prompt : string -> string -> string.
Variable build_status_block : HeartbeatProtocol -> string.
(** The model backend, [self.llm.chat]: the messages and, for a tool-capable
    backend only, the advertised tools. *)
Variable llm_chat : list Message -> option (list string) -> PyResult ChatResponse.
(** [json.dumps({"name": ..., "result": ...})] for a tool message. *)
Variable tool_json : string -> PyValue -> PyResult string.
(** The readings of [time.time()] around a skill call. *)
Variables start_time finish_time : Q.

Definition prepare_heartbeat (hp : HeartbeatProtocol) (now : string) : Prepared :=
  let user_messages := user_input_queue hp in
  let mm := fold_left add_to_recall (map (fun m => mkMessage user (Some m)) user_messages)
              (memory hp) in
  let hp1 := mkHB (beat_count hp + 1) (missed_beats hp) HEARTBEAT (Some now)
               (heartbeat_history hp) (stop_event hp) (heartbeat_requested hp) []
               (output_queue hp) mm (skills hp) (is_local hp) (interval hp)
               (has_thread hp) (attention_max_tokens hp) (attention_context hp) in
  let system_prompt :=
    if is_local hp1 then local_prompt now (build_status_block hp1)
    else heartbeat_prompt now (beat_count hp1) in
  let focus := last_opt user_messages in
  let '(messages, context, mm') :=
    build_context (attention_max_tokens hp1) (memory hp1) system_prompt focus in
  let hp2 := mkHB (beat_count hp1) (missed_beats hp1) (hb_state hp1) (last_heartbeat hp1)
               (heartbeat_history hp1) (stop_event hp1) (heartbeat_requested hp1)
               (user_input_queue hp1) (output_queue hp1) mm' (skills hp1) (is_local hp1)
               (interval hp1) (has_thread hp1) (attention_max_tokens hp1) (Some context) in
  match last_opt user_messages with
  | Some last =>
      if is_local hp2 then
        let augmented := "[Your internal status for reference]" +++ nl +++
                         build_status_block hp2 +++ nl +++ nl +++ "User message: " +++ last in
        CallModel hp2 (messages ++ [mkMessage user (Some augmented)]) user_messages
      else
        let hint := nl +++ nl +++ "[PENDING USER INPUT]" +++ nl +++
                    py_join nl (map (fun m => "User: " +++ m) user_messages) in
        CallModel hp2 (messages ++ [mkMessage user (Some ("Process these messages and respond." +++ hint))])
          user_messages
  | None =>
      if is_local hp2 then NoOp hp2
      else CallModel hp2 (messages ++ [mkMessage user (Some "Heartbeat tick. Reflect and act if needed."%string)]) []
  end.

(** [_call_llm_chat(messages)]: tools only for a tool-capable backend. *)
Definition call_llm_chat (hp : HeartbeatProtocol) (messages : list Message) : PyResult ChatResponse :=
  llm_chat messages (if is_local hp then None else Some (map fst (skills hp))).

(** The loop over [response.message.tool_calls] in [_process_response]. *)
Fixpoint run_tool_calls (hp : HeartbeatProtocol) (tcs : list ToolCall) : Outcome :=
  match tcs with
  | [] => Done hp
  | tc :: rest =>
      match execute (skills hp) (tc_name tc) (tc_arguments tc) start_time finish_time with
      | Raise e => Raised e hp
      | Ok result =>
          let shown := if success result then output result
                       else match error result with Some m => VStr m | None => VNone end in
          match tool_json (tc_name tc) shown with
          | Raise e => Raised e hp
          | Ok _ => run_tool_calls hp rest
          end
      end
  end.

(** [_process_response(response, messages)] *)
Definition process_response (hp : HeartbeatProtocol) (response : ChatResponse) : Outcome :=
  match message response with
  | None => Done hp
  | Some m =>
      let text := match resp_content m with Some c => c | None => ""%string end in
      let hp := set_memory hp (add_to_recall (memory hp) (mkMessage assistant (Some text))) in
      let after_tools :=
        match tool_calls m with
        | [] => Done hp
        | tcs => run_tool_calls (set_state hp EXECUTING) tcs
        end in
      match after_tools with
      | Raised e h => Raised e h
      | Done h =>
          match resp_content m, tool_calls m with
          | Some c, [] => if String.eqb c "" then Done h else Done (put_output h ("message"%string, c))
          | _, _ => Done h
          end
      end
  end.

(** The end of the cycle: [HeartbeatEvent], history, [IDLE], [missed_beats = 0]. *)
Definition record_beat (hp : HeartbeatProtocol) (user_messages : list string)
    (triggered : bool) (now : string) : HeartbeatProtocol :=
  let event := mkEvent (beat_count hp) now (hb_state hp) (get_memory_stats (memory hp))
                 (Z.of_nat (List.length user_messages)) ("triggered=" +++ py_bool_str triggered) in
  mkHB (beat_count hp) 0 IDLE (last_heartbeat hp)
    (deque_append 100 (heartbeat_history hp) event) (stop_event hp) (heartbeat_requested hp)
    (user_input_queue hp) (output_queue hp) (memory hp) (skills hp) (is_local hp)
    (interval hp) (has_thread hp) (attention_max_tokens hp) (attention_context hp).

(** The part of [_execute_heartbeat] from [self.state = AgentState.THINKING]:
    the model call and the response inside [try]; both [except] clauses put
    [("error", str(e))] on the output queue. *)
Definition complete_heartbeat (hp : HeartbeatProtocol) (messages : list Message)
    (user_messages : list string) (triggered : bool) (now : string) : Outcome :=
  let hp := set_state hp THINKING in
  let attempt :=
    match call_llm_chat hp messages with
    | Ok response => process_response hp response
    | Raise e => Raised e hp
    end in
  let handled :=
    match attempt with
    | Done h => Done h
    | Raised e h => if is_Exception e then Done (put_output h ("error"%string, exc_msg e)) else Raised e h
    end in
  match handled with
  | Done h => Done (record_beat h user_messages triggered now)
  | Raised e h => Raised e h
  end.

(** [_execute_heartbeat(triggered_by_event)] *)
Definition execute_heartbeat (hp : HeartbeatProtocol) (triggered : bool) (now : string) : Outcome :=
  match prepare_heartbeat hp now with
  | NoOp hp' => Done hp'
  | CallModel hp' messages user_messages => complete_heartbeat hp' messages user_messages triggered now
  end.

(** One pass of the [while] loop of [_heartbeat_loop], from the moment
    [self._heartbeat_requested.wait(timeout=self.interval)] returns
    [triggered] in state [hp]. *)
Inductive LoopStep :=
| Continue (hp : HeartbeatProtocol)
| Exit (hp : HeartbeatProtocol)
| Crash (e : PyExc) (hp : HeartbeatProtocol).

Definition heartbeat_loop_body (hp : HeartbeatProtocol) (triggered : bool) (now : string) : LoopStep :=
  let hp := clear_request hp in
  if stop_event hp then Exit hp
  else
    match execute_heartbeat hp triggered now with
    | Done h => Continue h
    | Raised e h =>
        if is_Exception e then
          let h := set_missed h (missed_beats h + 1) in
          Continue (if HEARTBEAT_MAX_MISSED <=? missed_beats h then set_state h ERROR else h)
        else Crash e h
    end.

End Heartbeat.

(** [while not self._stop_event.is_set()]: whether the loop runs another pass. *)
Definition loop_goes_on (hp : HeartbeatProtocol) : bool := negb (stop_event hp).

(** How long the worker's [self._heartbeat_requested.wait(timeout=self.interval)]
    blocks when nothing else signals the event: not at all if it is set, else
    the whole interval. *)
Definition wait_blocks_for (hp : HeartbeatProtocol) : Z :=
  if heartbeat_requested hp then 0 else interval hp.

(** [HeartbeatProtocol.stop()]: the new state and the timeout of the
    [join] on the worker thread, if there is one. *)
Definition stop (hp : HeartbeatProtocol) : HeartbeatProtocol * option Q :=
  let hp1 := mkHB (beat_count hp) (missed_beats hp) (hb_state hp) (last_heartbeat hp)
               (heartbeat_history hp) true (heartbeat_requested hp) (user_input_queue hp)
               (output_queue hp) (memory hp) (skills hp) (is_local hp) (interval hp)
               (has_thread hp) (attention_max_tokens hp) (attention_context hp) in
  (set_state hp1 SHUTDOWN, if has_thread hp then Some (5 # 1)%Q else None).

(** The state a prepared cycle carries on with. *)
Definition prepared_state (p : Prepared) : HeartbeatProtocol :=
  match p with NoOp h => h | CallModel h _ _ => h end.

(** The state a cycle outcome carries. *)
Definition outcome_state (o : Outcome) : HeartbeatProtocol :=
  match o with Done h => h | Raised _ h => h end.

(** A scheduler with an empty store: [local] says whether the backend is a
    local (tool-incapable) one, [requested] is the wake flag and [queue] the
    pending user input. *)
Definition example_hp (local requested : bool) (queue : list string) : HeartbeatProtocol :=
  mkHB 0 0 IDLE None [] false requested queue [] (mkMemory "agent" [] [] []) [] local
    HEARTBEAT_INTERVAL_SECONDS true ATTENTION_WINDOW_TOKENS None.

(** Sample collaborators for concrete runs of the cycle. *)
Definition sample_heartbeat_prompt (ts : string) (n : Z) : string := "You are Nexuss.".
Definition sample_local_prompt (ts status : string) : string := "You are Nexuss.".
Definition sample_status_block (hp : HeartbeatProtocol) : string := "HEARTBEAT PROTOCOL".
Definition sample_json (name : string) (v : PyValue) : PyResult string := Ok "{}"%string.

(** A backend whose every call raises the exception [name] of kind [kind]. *)
Definition failing_backend (kind : ExcKind) (name : string)
    (msgs : list Message) (tools : option (list string)) : PyResult ChatResponse :=
  Raise (mkExc name kind "backend failure").

(** ** Further operations of the memory store (memory_system.py) *)

(** [k in d] *)
Definition dict_mem {V} (k : string) (d : list (string * V)) : bool :=
  match dict_get k d with Some _ => true | None => false end.

(** [del d[k]]: removes the entry of [k]. *)
Fixpoint dict_del {V} (k : string) (d : list (string * V)) : list (string * V) :=
  match d with
  | [] => []
  | (k', v) :: r => if String.eqb k k' then r else (k', v) :: dict_del k r
  end.

(** [MemoryManager.delete_core_memory(key)] on the core store; the write to
    disk is not part of the in-memory state. *)
Definition delete_core_memory (c : list (string * MemoryBlock)) (key : string)
    : bool * list (string * MemoryBlock) :=
  if dict_mem key c then (true, dict_del key c) else (false, c).

(** A call on the core store: [update_core_memory(key, content)] with
    [timestamp()] = [now], or [delete_core_memory(key)]. *)
Inductive CoreOp :=
| CoreUpdate (now key text : string)
| CoreDelete (key : string).

(** A sequence of such calls, each on the store left by the previous one. *)
Fixpoint run_core_ops (hash_content : string -> string) (ops : list CoreOp)
    (c : list (string * MemoryBlock)) : list (string * MemoryBlock) :=
  match ops with
  | [] => c
  | CoreUpdate now key text :: rest =>
      run_core_ops hash_content rest (snd (update_core_memory hash_content now c key text))
  | CoreDelete key :: rest =>
      run_core_ops hash_content rest (snd (delete_core_memory c key))
  end.

(** [MemoryManager.add_to_archival(content, tags, importance)]: [secs] is the
    text of [int(time.time())], [now] the value of [timestamp()] taken by the
    [created_at] and [updated_at] defaults; [tags or []].  The write of the
    block's file is not part of the in-memory state. *)
Definition add_to_archival (hash_content : string -> string) (secs now : string)
    (mm : MemoryManager) (text : string) (tag_arg : option (list string)) (imp : Q)
    : string * MemoryManager :=
  let block_id := "arch_" +++ hash_content text +++ "_" +++ secs in
  let block := mkBlock block_id text ARCHIVAL now now imp 0
                 (match tag_arg with Some ts => ts | None => [] end) in
  (block_id,
   mkMemory (agent_id mm) (core mm) (recall mm) (dict_set block_id block (archival_index mm))).

(** [MemoryManager.delete_archival(block_id)]; the removal of the block's
    file is not part of the in-memory state. *)
Definition delete_archival (mm : MemoryManager) (block_id : string) : bool * MemoryManager :=
  if dict_mem block_id (archival_index mm)
  then (true, mkMemory (agent_id mm) (core mm) (recall mm) (dict_del block_id (archival_index mm)))
  else (false, mm).

(** Whether every character of [s] is whitespace (true of [""] too). *)
Definition all_space (s : string) : bool := forallb py_isspace (list_ascii_of_string s).

(** The last [n] items of a list. *)
Definition lastn {A} (n : nat) (l : list A) : list A := skipn (List.length l - n) l.

(** ** Further operations of the registry (skill_registry.py) *)

(** [SkillRegistry.unregister(name)] *)
Definition unregister (reg : Registry) (name : string) : bool * Registry :=
  if dict_mem name reg then (true, dict_del name reg) else (false, reg).

(** ** builtin_skills.py: ArchivalWriteSkill *)

(** [str.strip()] on ASCII whitespace: [lstrip_chars] drops the leading
    whitespace of a character list. *)
Fixpoint lstrip_chars (l : list ascii) : list ascii :=
  match l with
  | [] => []
  | c :: r => if py_isspace c then lstrip_chars r else l
  end.

Definition py_strip (s : string) : string :=
  string_of_list_ascii (rev (lstrip_chars (rev (lstrip_chars (list_ascii_of_string s))))).

(** [s.split(",")]: the pieces between commas; [cur] is the current piece,
    reversed. *)
Fixpoint split_comma_go (s : string) (cur : list ascii) : list string :=
  match s with
  | EmptyString => [string_of_list_ascii (rev cur)]
  | String c r =>
      if Ascii.eqb c ","%char then string_of_list_ascii (rev cur) :: split_comma_go r []
      else split_comma_go r (c :: cur)
  end.
Definition py_split_comma (s : string) : list string := split_comma_go s [].

(** [[t.strip() for t in tags.split(",") if t.strip()]] *)
Definition parse_tags (tags : string) : list string :=
  map py_strip (filter (fun t => negb (String.eqb (py_strip t) "")) (py_split_comma tags)).

(** [ArchivalWriteSkill.execute(content, tags)]: [add_to_archival(content,
    tag_list)] with the default importance [0.5]. *)
Definition archival_write (hash_content : string -> string) (secs now : string)
    (mm : MemoryManager) (text tags : string) : SkillResult * MemoryManager :=
  let tag_list := parse_tags tags in
  let '(bid, mm') := add_to_archival hash_content secs now mm text (Some tag_list) (1 # 2) in
  (mkResult true (VStr ("Archived: " +++ bid)) None 0, mm').

(** A non-empty string with no whitespace at either end. *)
Definition is_stripped (t : string) : bool :=
  match list_ascii_of_string t, rev (list_ascii_of_string t) with
  | c :: _, d :: _ => (negb (py_isspace c) && negb (py_isspace d))%bool
  | _, _ => false
  end.

(** ** Further operations of the scheduler (heartbeat_protocol.py) *)

(** [HeartbeatProtocol.send_user_input(message)] *)
Definition send_user_input (hp : HeartbeatProtocol) (m : string) : HeartbeatProtocol :=
  mkHB (beat_count hp) (missed_beats hp) (hb_state hp) (last_heartbeat hp)
    (heartbeat_history hp) (stop_event hp) true (user_input_queue hp ++ [m])
    (output_queue hp) (memory hp) (skills hp) (is_local hp) (interval hp)
    (has_thread hp) (attention_max_tokens hp) (attention_context hp).

(** [HeartbeatProtocol.start()]: [alive] is [self._heartbeat_thread.is_alive()]
    for the existing worker thread, if any. *)
Definition start (hp : HeartbeatProtocol) (alive : bool) : HeartbeatProtocol :=
  if (has_thread hp && alive)%bool then hp
  else
    set_state
      (mkHB (beat_count hp) (missed_beats hp) (hb_state hp) (last_heartbeat hp)
         (heartbeat_history hp) false (heartbeat_requested hp) (user_input_queue hp)
         (output_queue hp) (memory hp) (skills hp) (is_local hp) (interval hp)
         true (attention_max_tokens hp) (attention_context hp))
      IDLE.

(** The state a loop pass ends in. *)
Definition step_state (s : LoopStep) : HeartbeatProtocol :=
  match s with Continue h => h | Exit h => h | Crash _ h => h end.

(** ** nexuss_agent.py: NexussAgent.get_response and chat *)

(** The [while time.time() < deadline] loop of [get_response]: [polls] are
    the results of the [self.heartbeat.get_output(timeout=0.5)] calls made
    before the deadline ([None] when a call times out). *)
Fixpoint get_response_loop (polls : list (option (string * string)))
    (responses : list string) : option string :=
  match polls with
  | [] => match responses with [] => None | _ => Some (py_join nl responses) end
  | Some (msg_type, content) :: rest =>
      if String.eqb msg_type "message" then get_response_loop rest (responses ++ [content])
      else if String.eqb msg_type "error" then Some ("[Error] " +++ content)
      else get_response_loop rest responses
  | None :: rest =>
      match responses with
      | [] => get_response_loop rest responses
      | _ => Some (py_join nl responses)
      end
  end.

Definition get_response (polls : list (option (string * string))) : option string :=
  get_response_loop polls [].

(** The reply of [chat(message)]: [self.get_response() or "[No response]"]. *)
Definition chat_reply (polls : list (option (string * string))) : string :=
  match get_response polls with
  | Some s => if String.eqb s "" then "[No response]" else s
  | None => "[No response]"
  end.

(** ** local_model_wrapper.py: the turns of LocalModel.chat *)

(** A message is a [(role, content)] pair.  [append_or_merge] is
    [if merged and merged[-1]["role"] == role: merged[-1]["content"] += "\n" + content]
    [else: merged.append({"role": role, "content": content})]. *)
Definition append_or_merge (merged : list (string * string)) (role content : string)
    : list (string * string) :=
  match rev merged with
  | (r, c) :: rr =>
      if String.eqb r role then rev rr ++ [(r, c +++ nl +++ content)]
      else merged ++ [(role, content)]
  | [] => [(role, content)]
  end.

(** The first loop of [LocalModel.chat]: system messages are buffered and
    put in front of the next user message, tool messages become user
    messages, consecutive messages of one role are merged. *)
Fixpoint merge_loop (msgs : list (string * string)) (merged : list (string * string))
    (system_buf : list string) : list (string * string) * list string :=
  match msgs with
  | [] => (merged, system_buf)
  | (role0, content0) :: rest =>
      if String.eqb role0 "system" then merge_loop rest merged (system_buf ++ [content0])
      else
        let role := if String.eqb role0 "tool" then "user"%string else role0 in
        let content := if String.eqb role0 "tool" then "[Tool result] " +++ content0
                       else content0 in
        match system_buf with
        | _ :: _ =>
            if String.eqb role "user"
            then merge_loop rest
                   (append_or_merge merged role (py_join nl system_buf +++ nl +++ nl +++ content)) []
            else merge_loop rest (append_or_merge merged role content) system_buf
        | [] => merge_loop rest (append_or_merge merged role content) system_buf
        end
  end.

(** The list [final] that [LocalModel.chat] hands to [apply_chat_template]. *)
Definition local_chat_turns (msgs : list (string * string)) : list (string * string) :=
  let '(merged, system_buf) := merge_loop msgs [] [] in
  let merged :=
    match system_buf with
    | [] => merged
    | _ => append_or_merge merged "user" (py_join nl system_buf)
    end in
  let merged := match merged with [] => [("user"%string, ""%string)] | _ => merged end in
  let merged :=
    match merged with
    | (r, _) :: _ => if String.eqb r "user" then merged else ("user"%string, "(start)"%string) :: merged
    | [] => merged
    end in
  match merged with
  | [] => []
  | m0 :: rest => fold_left (fun final m => append_or_merge final (fst m) (snd m)) rest [m0]
  end.

(** The roles a chat turn of the local backend may carry. *)
Definition chat_role_ok (r : string) : Prop := r <> "system"%string /\ r <> "tool"%string.

(** * Proofs *)

(** *** Facts about the dictionary model and the core store *)

Lemma dict_get_set_same {V} (k : string) (v : V) d : dict_get k (dict_set k v d) = Some v.
Proof.
  induction d as [|[k' v'] r IH]; simpl.
  - now rewrite String.eqb_refl.
  - destruct (String.eqb k k') eqn:E; simpl; rewrite E; auto.
Qed.

Lemma dict_get_set_other {V} (k k2 : string) (v : V) d :
  k2 <> k -> dict_get k2 (dict_set k v d) = dict_get k2 d.
Proof.
  intros Hne. induction d as [|[k' v'] r IH]; simpl.
  - destruct (String.eqb k2 k) eqn:E; auto.
    apply String.eqb_eq in E; congruence.
  - destruct (String.eqb k k') eqn:E; simpl.
    + apply String.eqb_eq in E; subst k'.
      destruct (String.eqb k2 k) eqn:E2; auto.
      apply String.eqb_eq in E2; congruence.
    + destruct (String.eqb k2 k'); auto.
Qed.

Lemma dict_set_keys {V} (k : string) (v : V) d :
  map fst (dict_set k v d) = if existsb (String.eqb k) (map fst d) then map fst d
                             else map fst d ++ [k].
Proof.
  induction d as [|[k' v'] r IH]; simpl; auto.
  destruct (String.eqb k k') eqn:E; simpl; auto.
  rewrite IH. destruct (existsb (String.eqb k) (map fst r)); auto.
Qed.

Lemma dict_set_nodup {V} (k : string) (v : V) d :
  NoDup (map fst d) -> NoDup (map fst (dict_set k v d)).
Proof.
  intros Hnd. rewrite dict_set_keys.
  destruct (existsb (String.eqb k) (map fst d)) eqn:E; auto.
  apply NoDup_app; auto using NoDup_cons, NoDup_nil.
  intros x Hx Hx'. destruct Hx' as [Hk|[]]; subst x.
  assert (existsb (String.eqb k) (map fst d) = true) by
    (apply existsb_exists; exists k; split; auto; apply String.eqb_refl).
  congruence.
Qed.

Lemma others_len_absent (c : list (string * MemoryBlock)) key :
  ~ In key (map fst c) -> others_len c key = core_total c.
Proof.
  unfold others_len, core_total.
  induction c as [|[k b] r IH]; simpl; intros Hn; auto.
  destruct (String.eqb k key) eqn:E.
  - apply String.eqb_eq in E. exfalso; auto.
  - simpl. rewrite IH; auto.
Qed.

Lemma core_total_dict_set (c : list (string * MemoryBlock)) key v :
  NoDup (map fst c) ->
  core_total (dict_set key v c) = (others_len c key + String.length (content v))%nat.
Proof.
  induction c as [|[k b] r IH]; simpl; intros Hnd.
  - unfold core_total, others_len, block_len; simpl. lia.
  - inversion Hnd as [|? ? Hnin Hnd']; subst.
    destruct (String.eqb key k) eqn:E.
    + apply String.eqb_eq in E; subst k.
      unfold others_len in *; simpl. rewrite String.eqb_refl; simpl.
      fold (others_len r key). rewrite others_len_absent by auto.
      unfold core_total, block_len; simpl. lia.
    + specialize (IH Hnd').
      unfold core_total in *; unfold others_len in *; simpl.
      assert (E' : String.eqb k key = false) by (rewrite String.eqb_sym; auto).
      rewrite E'; simpl. rewrite IH. lia.
Qed.

Lemma update_core_memory_step hash now c key text :
  NoDup (map fst c) ->
  NoDup (map fst (snd (update_core_memory hash now c key text))) /\
  (core_total c <= CORE_MEMORY_LIMIT ->
   core_total (snd (update_core_memory hash now c key text)) <= CORE_MEMORY_LIMIT)%nat.
Proof.
  intros Hnd. unfold update_core_memory.
  destruct (Nat.ltb CORE_MEMORY_LIMIT (others_len c key + String.length text)) eqn:L.
  - simpl; auto.
  - apply Nat.ltb_ge in L.
    destruct (dict_get key c); simpl;
      (split; [apply dict_set_nodup; auto
              | intros _; rewrite core_total_dict_set by auto; simpl; lia]).
Qed.

Lemma run_core_updates_bounded hash calls c :
  NoDup (map fst c) -> (core_total c <= CORE_MEMORY_LIMIT)%nat ->
  (core_total (run_core_updates hash calls c) <= CORE_MEMORY_LIMIT)%nat.
Proof.
  revert c; induction calls as [|[[now key] text] rest IH]; intros c Hnd Hle; simpl; auto.
  destruct (update_core_memory_step hash now c key text Hnd) as [Hnd' Hle'].
  apply IH; auto.
Qed.

(** ** C1: core memory budget

    (C1) Starting from any core store within the budget (keys are distinct, as
    in a Python dict), every sequence of [update_core_memory] calls keeps the
    sum of the core blocks' content lengths within [CORE_MEMORY_LIMIT]; a call
    whose other blocks' length plus the new content exceeds the limit returns
    [false] and leaves the store unchanged; any other call returns [true] and
    upserts the block: afterwards the key holds the new content and every
    other key is as before. *)
Theorem update_core_memory_within_limit (hash_content : string -> string)
    (c0 : list (string * MemoryBlock))
    (Hnd : NoDup (map fst c0)) (Hle : (core_total c0 <= CORE_MEMORY_LIMIT)%nat) :
  (forall calls,
     (core_total (run_core_updates hash_content calls c0) <= CORE_MEMORY_LIMIT)%nat) /\
  (forall now c key text,
     let '(ok, c') := update_core_memory hash_content now c key text in
     (ok = false <-> (CORE_MEMORY_LIMIT < others_len c key + String.length text)%nat) /\
     (ok = false -> c' = c) /\
     (ok = true ->
        (exists b, dict_get key c' = Some b /\ content b = text) /\
        (forall k, k <> key -> dict_get k c' = dict_get k c))).
Proof.
  split.
  - intros calls. apply run_core_updates_bounded; auto.
  - intros now c key text. unfold update_core_memory.
    destruct (Nat.ltb CORE_MEMORY_LIMIT (others_len c key + String.length text)) eqn:L.
    + apply Nat.ltb_lt in L. repeat split; auto; discriminate.
    + apply Nat.ltb_ge in L.
      destruct (dict_get key c) as [b|] eqn:G;
        (split; [split; [discriminate | lia] | split; [discriminate | intros _]]);
        (split; [eexists; split; [apply dict_get_set_same | reflexivity]
                | intros k Hk; apply dict_get_set_other; auto]).
Qed.

Lemma update_core_memory_within_limit_witness :
  NoDup (map fst ([] : list (string * MemoryBlock))) /\
  (core_total [] <= CORE_MEMORY_LIMIT)%nat /\
  (core_total (run_core_updates (fun s => s) [("t0", "persona", "I am Nexuss.");
                                               ("t1", "user_info", "unknown")]%string [])
     <= CORE_MEMORY_LIMIT)%nat.
Proof.
  assert (Hn : NoDup (map fst ([] : list (string * MemoryBlock)))) by constructor.
  assert (Hl : (core_total [] <= CORE_MEMORY_LIMIT)%nat) by (vm_compute; lia).
  split; [exact Hn | split; [exact Hl |]].
  exact (proj1 (update_core_memory_within_limit (fun s => s) [] Hn Hl) _).
Defined.

(** ** C2: the recall buffer *)

Lemma deque_append_length {A} maxlen (xs : list A) x :
  (List.length xs <= maxlen)%nat -> (List.length (deque_append maxlen xs x) <= maxlen)%nat.
Proof.
  unfold deque_append. intros H.
  destruct (Nat.ltb maxlen (List.length (xs ++ [x]))) eqn:L.
  - apply Nat.ltb_lt in L. rewrite length_app in L. simpl in L.
    rewrite length_tl, length_app. simpl. lia.
  - apply Nat.ltb_ge in L. auto.
Qed.

Lemma fold_add_to_recall_length msgs mm :
  (List.length (recall mm) <= RECALL_MEMORY_LIMIT)%nat ->
  (List.length (recall (fold_left add_to_recall msgs mm)) <= RECALL_MEMORY_LIMIT)%nat.
Proof.
  revert mm; induction msgs as [|m rest IH]; intros mm H; simpl; auto.
  apply IH. simpl. apply deque_append_length; auto.
Qed.

(** (C2) Every [add_to_recall] returns normally.  From any buffer within its
    capacity (the buffer starts empty), every sequence of appends keeps at most
    [RECALL_MEMORY_LIMIT] entries; an append to a buffer that is not full adds
    the entry at the newest end; an append to a full buffer drops exactly the
    oldest entry and keeps the others in order, the new entry last.  The other
    tiers are untouched. *)
Theorem add_to_recall_fifo :
  (forall mm msgs,
     (List.length (recall mm) <= RECALL_MEMORY_LIMIT)%nat ->
     (List.length (recall (fold_left add_to_recall msgs mm)) <= RECALL_MEMORY_LIMIT)%nat) /\
  (forall mm m,
     (List.length (recall mm) < RECALL_MEMORY_LIMIT)%nat ->
     recall (add_to_recall mm m) = recall mm ++ [m]) /\
  (forall mm m,
     List.length (recall mm) = RECALL_MEMORY_LIMIT ->
     exists oldest rest, recall mm = oldest :: rest /\ recall (add_to_recall mm m) = rest ++ [m]) /\
  (forall mm m,
     core (add_to_recall mm m) = core mm /\
     archival_index (add_to_recall mm m) = archival_index mm).
Proof.
  split; [|split; [|split]].
  - intros mm msgs H. apply fold_add_to_recall_length; auto.
  - intros mm m H. simpl. unfold deque_append.
    rewrite length_app; simpl.
    destruct (Nat.ltb RECALL_MEMORY_LIMIT (List.length (recall mm) + 1)) eqn:L; auto.
    apply Nat.ltb_lt in L. lia.
  - intros mm m H. destruct (recall mm) as [|o rest] eqn:E.
    + simpl in H. discriminate.
    + exists o, rest. split; auto. simpl. unfold deque_append. rewrite E.
      simpl in *. rewrite length_app. simpl.
      replace (Nat.ltb RECALL_MEMORY_LIMIT (S (List.length rest + 1))) with true; auto.
      symmetry. apply Nat.ltb_lt. lia.
  - intros; simpl; auto.
Qed.

(** ** C10: reading the recall buffer *)

(** (C10) [get_recall_messages] with [limit=0] returns the whole buffer (a zero
    limit is falsy, like [None]); with a limit [n > 0] it returns a suffix of
    the buffer, in chronological order, of length [min n (length buffer)]: the
    most recent entries. *)
Theorem get_recall_messages_limit :
  forall mm,
    get_recall_messages mm (Some 0) = recall mm /\
    get_recall_messages mm None = recall mm /\
    (forall n, 0 < n ->
       exists older, recall mm = older ++ get_recall_messages mm (Some n) /\
         List.length (get_recall_messages mm (Some n))
           = Nat.min (Z.to_nat n) (List.length (recall mm))).
Proof.
  intros mm. split; [reflexivity | split; [reflexivity |]].
  intros n Hn. unfold get_recall_messages.
  replace (Z.eqb n 0) with false by (symmetry; apply Z.eqb_neq; lia).
  unfold py_drop, py_slice_index.
  replace (- n <? 0) with true by (symmetry; apply Z.ltb_lt; lia).
  set (xs := recall mm).
  exists (firstn (Z.to_nat (Z.max 0 (- n + Z.of_nat (List.length xs)))) xs).
  split; [symmetry; apply firstn_skipn|].
  rewrite length_skipn. lia.
Qed.

(** ** C4: archival search *)

Lemma search_loop_results words tf blocks :
  forall s b, In (s, b) (snd (search_loop words tf blocks)) ->
    s = match_score words (py_lower (content b)) /\ (0 < s)%nat /\ tag_ok tf b = true /\
    exists k b0, In (k, b0) blocks /\ b = bump_access b0.
Proof.
  induction blocks as [|[k b0] rest IH]; simpl; intros s b H; [contradiction|].
  destruct (search_loop words tf rest) as [rest' results] eqn:E; simpl in IH.
  destruct (tag_ok tf b0) eqn:T; simpl in H.
  - destruct (Nat.ltb 0 (match_score words (py_lower (content b0)))) eqn:L; simpl in H.
    + destruct H as [H|H].
      * injection H as <- <-. apply Nat.ltb_lt in L.
        repeat split; auto. exists k, b0; auto.
      * destruct (IH s b H) as (? & ? & ? & k' & b' & ? & ?).
        repeat split; auto. exists k', b'; auto.
    + destruct (IH s b H) as (? & ? & ? & k' & b' & ? & ?).
      repeat split; auto. exists k', b'; auto.
  - destruct (IH s b H) as (? & ? & ? & k' & b' & ? & ?).
    repeat split; auto. exists k', b'; auto.
Qed.

Lemma In_firstn_l {A} (x : A) n l : In x (firstn n l) -> In x l.
Proof.
  revert l; induction n as [|n IH]; intros l H; simpl in H; [contradiction|].
  destruct l as [|y r]; [contradiction|]. destruct H as [H|H]; simpl; auto.
Qed.

Lemma In_insert_desc x y l : In x (insert_desc y l) <-> y = x \/ In x l.
Proof.
  induction l as [|z r IH]; simpl.
  - tauto.
  - destruct (key_lt z y); simpl; [tauto|]. rewrite IH. tauto.
Qed.

Lemma In_sort_desc_gen x l acc :
  In x (fold_left (fun acc x => insert_desc x acc) l acc) <-> In x l \/ In x acc.
Proof.
  revert acc; induction l as [|y r IH]; intros acc; simpl.
  - tauto.
  - rewrite IH, In_insert_desc. tauto.
Qed.

Lemma In_sort_desc x l : In x (sort_desc l) <-> In x l.
Proof. unfold sort_desc. rewrite In_sort_desc_gen. simpl. tauto. Qed.

Definition not_lt (a b : nat * MemoryBlock) : Prop := key_lt a b = false.

Lemma key_lt_asym a b : key_lt a b = true -> key_lt b a = false.
Proof.
  unfold key_lt, Qltb. intros H.
  apply orb_true_iff in H.
  destruct H as [H|H].
  - apply Nat.ltb_lt in H.
    apply orb_false_iff; split; [apply Nat.ltb_ge; lia|].
    apply andb_false_iff; left; apply Nat.eqb_neq; lia.
  - apply andb_true_iff in H as [H1 H2]. apply Nat.eqb_eq in H1.
    apply negb_true_iff in H2.
    apply orb_false_iff; split; [apply Nat.ltb_ge; lia|].
    apply andb_false_iff; right. apply negb_false_iff.
    apply Qle_bool_iff. apply Qlt_le_weak. apply Qnot_le_lt.
    intros Hle. apply Qle_bool_iff in Hle. congruence.
Qed.

Lemma insert_desc_hd y x l :
  HdRel not_lt y l -> not_lt y x -> HdRel not_lt y (insert_desc x l).
Proof.
  intros Hh Hyx. destruct l as [|z r]; simpl.
  - constructor; auto.
  - destruct (key_lt z x); constructor; auto.
    inversion Hh; auto.
Qed.

Lemma insert_desc_sorted x l : Sorted not_lt l -> Sorted not_lt (insert_desc x l).
Proof.
  induction l as [|z r IH]; intros Hs; simpl.
  - repeat constructor.
  - destruct (key_lt z x) eqn:E.
    + constructor; auto. constructor. unfold not_lt. apply key_lt_asym; auto.
    + inversion Hs as [|? ? Hs' Hh]; subst.
      constructor; auto. apply insert_desc_hd; auto.
Qed.

Lemma sort_desc_sorted l : Sorted not_lt (sort_desc l).
Proof.
  unfold sort_desc.
  assert (G : forall acc, Sorted not_lt acc ->
             Sorted not_lt (fold_left (fun acc x => insert_desc x acc) l acc)).
  { induction l as [|y r IH]; intros acc Hacc; simpl; auto.
    apply IH. apply insert_desc_sorted; auto. }
  apply G. constructor.
Qed.

Lemma sorted_firstn {A} (R : A -> A -> Prop) n l : Sorted R l -> Sorted R (firstn n l).
Proof.
  revert l; induction n as [|n IH]; intros l Hs; simpl; [constructor|].
  destruct l as [|x r]; [constructor|].
  inversion Hs as [|? ? Hs' Hh]; subst.
  constructor; auto.
  destruct n; simpl; [constructor|].
  destruct r; simpl; constructor. inversion Hh; auto.
Qed.

Lemma sorted_map {A B} (P : A -> A -> Prop) (Inv : A -> Prop) (R : B -> B -> Prop)
    (f : A -> B) l :
  Sorted P l -> (forall x, In x l -> Inv x) ->
  (forall x y, Inv x -> Inv y -> P x y -> R (f x) (f y)) -> Sorted R (map f l).
Proof.
  intros Hs. induction Hs as [|x r Hs IH Hh]; intros Hinv Hpr; simpl; constructor.
  - apply IH; auto. intros z Hz; apply Hinv; simpl; auto.
  - destruct Hh as [|y r' Hxy]; simpl; constructor.
    apply Hpr; auto; apply Hinv; simpl; auto.
Qed.

(** (C4) For every archival index, query, limit [>= 0] and tag filter, every
    block returned by [search_archival] comes from the index (with its access
    counter incremented), contains at least one word of the lowercased query in
    its lowercased content, and, when a non-empty tag filter is given, shares a
    tag with it (an empty filter list is falsy in the source and filters
    nothing, like [None]); the result is ordered by matching-word count
    descending, then importance descending, and has at most [limit] blocks. *)
Theorem search_archival_spec (mm : MemoryManager) (query : string) (limit : Z)
    (tag_filter : option (list string)) (Hlim : 0 <= limit) :
  let res := fst (search_archival mm query limit tag_filter) in
  (List.length res <= Z.to_nat limit)%nat /\
  (forall b, In b res ->
     (exists w, In w (py_split (py_lower query)) /\ str_contains (py_lower (content b)) w = true) /\
     (forall ts, tag_filter = Some ts -> ts <> [] -> exists t, In t ts /\ In t (tags b)) /\
     (exists k b0, In (k, b0) (archival_index mm) /\ b = bump_access b0)) /\
  Sorted (ranked_before query) res.
Proof.
  unfold search_archival.
  destruct (search_loop (query_words query) tag_filter (archival_index mm))
    as [arch' results] eqn:E. simpl.
  pose proof (search_loop_results (query_words query) tag_filter (archival_index mm)) as HR.
  rewrite E in HR; simpl in HR.
  assert (Hin : forall p, In p (py_take limit (sort_desc results)) -> In p results).
  { intros p Hp. unfold py_take in Hp. apply In_firstn_l in Hp.
    apply In_sort_desc; auto. }
  split; [|split].
  - rewrite length_map. unfold py_take.
    rewrite length_firstn. unfold py_slice_index.
    replace (limit <? 0) with false by (symmetry; apply Z.ltb_ge; lia). lia.
  - intros b Hb. apply in_map_iff in Hb as [[s b'] [Hs Hp]]; simpl in Hs; subst b'.
    apply Hin in Hp. destruct (HR s b Hp) as (Hsc & Hpos & Htag & Horig).
    split; [|split; [|exact Horig]].
    + unfold match_score in Hsc. subst s.
      destruct (filter (fun w => str_contains (py_lower (content b)) w) (query_words query))
        as [|w ws] eqn:F; simpl in Hpos; [lia|].
      assert (Hw : In w (filter (fun w => str_contains (py_lower (content b)) w)
                               (query_words query))) by (rewrite F; simpl; auto).
      apply filter_In in Hw as [Hw1 Hw2].
      exists w; split; auto. unfold query_words in Hw1. apply nodup_In in Hw1. exact Hw1.
    + intros ts Hts Hne. subst tag_filter. destruct ts as [|t0 ts']; [congruence|].
      unfold tag_ok in Htag. apply existsb_exists in Htag as [t [Ht1 Ht2]].
      apply existsb_exists in Ht2 as [t' [Ht'1 Ht'2]].
      apply String.eqb_eq in Ht'2. subst t'. exists t; auto.
  - apply (sorted_map not_lt (fun p => In p results)).
    + unfold py_take. apply sorted_firstn, sort_desc_sorted.
    + exact Hin.
    + intros [s1 b1] [s2 b2] H1 H2 Hnl; simpl.
      destruct (HR _ _ H1) as (E1 & _). destruct (HR _ _ H2) as (E2 & _).
      unfold ranked_before, archival_score. rewrite <- E1, <- E2.
      unfold not_lt, key_lt, Qltb in Hnl; simpl in Hnl.
      apply orb_false_iff in Hnl as [Hn1 Hn2]. apply Nat.ltb_ge in Hn1.
      destruct (Nat.eq_dec s1 s2) as [->|Hne]; [|left; lia].
      right; split; auto.
      rewrite Nat.eqb_refl in Hn2; simpl in Hn2.
      apply negb_false_iff in Hn2. apply Qle_bool_iff; auto.
Qed.

Lemma search_archival_spec_witness :
  (0 <= 5) /\
  (List.length (fst (search_archival example_archive "foo bar" 5 None)) <= Z.to_nat 5)%nat.
Proof.
  split; [lia|].
  exact (proj1 (search_archival_spec example_archive "foo bar"%string 5 None ltac:(lia))).
Defined.

(** ** C3: the attention budget *)

Lemma sum_tokens_app l1 l2 : sum_tokens (l1 ++ l2) = sum_tokens l1 + sum_tokens l2.
Proof.
  induction l1 as [|m r IH]; simpl; [reflexivity|]. rewrite IH. lia.
Qed.

Lemma recall_fill_selection (rem : Z) (R : list Message) :
  forall acc tok, exists older sel,
    R = older ++ sel /\
    recall_fill rem (rev R) acc tok = (sel ++ acc, tok + sum_tokens sel) /\
    (sel <> [] -> tok + sum_tokens sel <= rem) /\
    (older = [] \/ exists m older', older = older' ++ [m] /\
        rem < tok + sum_tokens sel + estimate_tokens (content_or_empty m)).
Proof.
  induction R as [|m R IH] using rev_ind; intros acc tok.
  - exists [], []. simpl. repeat split; auto. f_equal; lia. congruence.
  - rewrite rev_app_distr. simpl.
    destruct (rem <? tok + estimate_tokens (content_or_empty m)) eqn:L.
    + apply Z.ltb_lt in L.
      exists (R ++ [m]), []. simpl. rewrite app_nil_r.
      repeat split; auto; [f_equal; lia | congruence |].
      right. exists m, R. split; auto. lia.
    + apply Z.ltb_ge in L.
      destruct (IH (m :: acc) (tok + estimate_tokens (content_or_empty m)))
        as (older & sel & HR & Hf & Hfit & Hstop).
      exists older, (sel ++ [m]). rewrite sum_tokens_app. simpl.
      repeat split.
      * rewrite HR, app_assoc. reflexivity.
      * rewrite Hf, <- app_assoc. simpl. f_equal. lia.
      * intros _. destruct sel as [|x sel'].
        -- simpl. lia.
        -- assert (x :: sel' <> []) by congruence. specialize (Hfit H). lia.
      * destruct Hstop as [Hn|(m' & o' & Ho & Hlt)]; [left; auto|].
        right. exists m', o'. split; auto. lia.
Qed.

Lemma recall_fill_sel rem mm2 :
  let '(sel, _) := recall_fill rem (rev (get_recall_messages mm2 None)) [] 0 in
  recall_selection rem (recall mm2) sel.
Proof.
  unfold get_recall_messages.
  destruct (recall_fill_selection rem (recall mm2) [] 0)
    as (older & sel & HR & Hf & Hfit & Hstop).
  rewrite Hf. exists older. rewrite app_nil_r. split; [auto | split].
  - intros Hne; specialize (Hfit Hne); lia.
  - destruct Hstop as [Hn|(m & o & Ho & Hlt)]; [left; auto|].
    right; exists m, o; split; auto; lia.
Qed.

Lemma search_archival_store mm q limit tf :
  let mm' := snd (search_archival mm q limit tf) in
  agent_id mm' = agent_id mm /\ core mm' = core mm /\ recall mm' = recall mm /\
  archival_index mm' = fst (search_loop (query_words q) tf (archival_index mm)).
Proof.
  unfold search_archival.
  destruct (search_loop (query_words q) tf (archival_index mm)); simpl; auto.
Qed.

Lemma search_archival_results_same mm mm1 q limit tf :
  archival_index mm1 = archival_index mm ->
  fst (search_archival mm1 q limit tf) = fst (search_archival mm q limit tf).
Proof.
  intros H. unfold search_archival. rewrite H.
  destruct (search_loop (query_words q) tf (archival_index mm)); reflexivity.
Qed.

(** (C3, amended) [build_context] starts from [remaining0 = max_tokens -
    (cost of the system prompt + cost of the core memory text) - 500]; when a
    non-empty focus query is given and the archival search finds blocks, the
    formatted excerpt is appended in full to the system message if and only if
    its cost ([len // 4]) is strictly less than [remaining0 // 3] (one-third
    rounded down), and its cost is then deducted; otherwise the system message
    is the prompt and core memory alone.  The rest of the message list is the
    recall selection: a suffix of the buffer in chronological order whose total
    cost fits the remaining budget, stopping at the first older entry that would
    overflow it. *)
Theorem build_context_budget (max_tokens : Z) (mm : MemoryManager)
    (system_prompt : string) (focus_query : option string) :
  let '(msgs, _, _) := build_context max_tokens mm system_prompt focus_query in
  let core_content := fst (get_core_memory mm) in
  let full := full_system_of system_prompt core_content in
  let remaining0 :=
    max_tokens - (estimate_tokens system_prompt + estimate_tokens core_content) - 500 in
  exists sys_content remaining sel,
    msgs = mkMessage system (Some sys_content) :: sel /\
    match focus_excerpt mm focus_query with
    | Some ex =>
        if estimate_tokens ex <? remaining0 / 3
        then sys_content = full +++ nl +++ ex /\ remaining = remaining0 - estimate_tokens ex
        else sys_content = full /\ remaining = remaining0
    | None => sys_content = full /\ remaining = remaining0
    end /\
    recall_selection remaining (recall mm) sel.
Proof.
  cbv beta iota zeta delta [build_context get_core_memory]. cbn [fst snd].
  set (core_content := py_join (nl +++ nl) (map core_part (core mm))).
  set (mm1 := mkMemory (agent_id mm) (map (fun kb => (fst kb, bump_access (snd kb))) (core mm))
                (recall mm) (archival_index mm)).
  set (rem0 := max_tokens - (estimate_tokens system_prompt + estimate_tokens core_content) - 500).
  assert (Hfill : forall rem mm2 sel t, recall mm2 = recall mm ->
            recall_fill rem (rev (get_recall_messages mm2 None)) [] 0 = (sel, t) ->
            recall_selection rem (recall mm) sel).
  { intros rem mm2 sel t Hr EF. pose proof (recall_fill_sel rem mm2) as H.
    rewrite EF, Hr in H. exact H. }
  unfold focus_excerpt.
  destruct focus_query as [q|].
  2: { destruct (recall_fill rem0 _ [] 0) as [sel t] eqn:EF.
       exists (full_system_of system_prompt core_content), rem0, sel.
       split; [reflexivity | split; [split; reflexivity | eapply Hfill; [|exact EF]; reflexivity]]. }
  destruct (String.eqb q "") eqn:Eq.
  { destruct (recall_fill rem0 _ [] 0) as [sel t] eqn:EF.
    exists (full_system_of system_prompt core_content), rem0, sel.
    split; [reflexivity | split; [split; reflexivity | eapply Hfill; [|exact EF]; reflexivity]]. }
  rewrite <- (search_archival_results_same mm mm1 q 5 None eq_refl).
  destruct (search_archival mm1 q 5 None) as [rs mm2] eqn:ES.
  assert (Hr2 : recall mm2 = recall mm).
  { destruct (search_archival_store mm1 q 5 None) as (_ & _ & Hr & _).
    rewrite ES in Hr. exact Hr. }
  cbn [fst].
  destruct rs as [|b bs].
  { destruct (recall_fill rem0 _ [] 0) as [sel t] eqn:EF.
    exists (full_system_of system_prompt core_content), rem0, sel.
    split; [reflexivity | split; [split; reflexivity | eapply Hfill; [exact Hr2|exact EF]]]. }
  fold rem0.
  destruct (estimate_tokens (archival_content_of (b :: bs)) <? rem0 / 3) eqn:Ecmp.
  - destruct (recall_fill _ _ [] 0) as [sel t] eqn:EF.
    eexists _, _, sel.
    split; [reflexivity | split; [split; reflexivity | eapply Hfill; [exact Hr2|exact EF]]].
  - destruct (recall_fill rem0 _ [] 0) as [sel t] eqn:EF.
    exists (full_system_of system_prompt core_content), rem0, sel.
    split; [reflexivity | split; [split; reflexivity | eapply Hfill; [exact Hr2|exact EF]]].
Qed.

(** (C3) The claim reads "strictly less than one-third of the remaining
    budget"; the code compares with [remaining // 3].  With 200 tokens
    remaining, an excerpt of 66 tokens is below one-third (198 < 200) and is
    still left out. *)
Lemma build_context_floor_third_cex :
  let ex := archival_content_of (fst (search_archival floor_third_store "foo" 5 None)) in
  let '(msgs, _, _) := build_context 700 floor_third_store "" (Some "foo"%string) in
  focus_excerpt floor_third_store (Some "foo"%string) = Some ex /\
  estimate_tokens ex = 66 /\
  700 - (estimate_tokens "" + estimate_tokens (fst (get_core_memory floor_third_store))) - 500
    = 200 /\
  3 * 66 < 200 /\
  hd_error msgs = Some (mkMessage system (Some (full_system_of "" ""))).
Proof. vm_compute. repeat split; reflexivity. Qed.

(** ** C7: what [build_context] does to the store *)

Lemma search_loop_no_filter words blocks :
  fst (search_loop words None blocks) =
  map (fun kb => (fst kb, if Nat.ltb 0 (match_score words (py_lower (content (snd kb))))
                          then bump_access (snd kb) else snd kb)) blocks.
Proof.
  induction blocks as [|[k b] rest IH]; simpl; auto.
  destruct (search_loop words None rest) as [rest' res]; simpl in *.
  destruct (Nat.ltb 0 (match_score words (py_lower (content b)))); simpl; f_equal; auto.
Qed.

(** (C7) The claim says the store is left completely unchanged, access
    counters included; [get_core_memory] increments the counter of every core
    block. *)
Lemma build_context_access_count_cex :
  let '(_, _, mm') := build_context 4096 one_core_store "sys" None in
  map (fun kb => access_count (snd kb)) (core one_core_store) = [0] /\
  map (fun kb => access_count (snd kb)) (core mm') = [1].
Proof. vm_compute. split; reflexivity. Qed.

(** (C7, amended) [build_context] leaves the recall buffer, the keys and
    contents of the core blocks and the keys and contents of the archival
    blocks unchanged.  Its only effect on the store is on access counters: it
    increments the [access_count] of every core block by one, and, when a
    non-empty focus query is given, that of every archival block containing a
    query word, whether or not the block is among the five returned; other
    archival blocks keep their counter. *)
Theorem build_context_store_effect (max_tokens : Z) (mm : MemoryManager)
    (system_prompt : string) (focus_query : option string) :
  let '(_, _, mm') := build_context max_tokens mm system_prompt focus_query in
  agent_id mm' = agent_id mm /\ recall mm' = recall mm /\
  core mm' = map (fun kb => (fst kb, bump_access (snd kb))) (core mm) /\
  archival_index mm' =
    map (fun kb => (fst kb, if focus_matches focus_query (snd kb)
                           then bump_access (snd kb) else snd kb))
        (archival_index mm).
Proof.
  cbv beta iota zeta delta [build_context get_core_memory]. cbn [fst snd].
  set (mm1 := mkMemory (agent_id mm) (map (fun kb => (fst kb, bump_access (snd kb))) (core mm))
                (recall mm) (archival_index mm)).
  assert (Hid : forall l : list (string * MemoryBlock),
             map (fun kb => (fst kb, snd kb)) l = l).
  { induction l as [|[k b] r IH]; simpl; f_equal; auto. }
  destruct focus_query as [q|].
  2: { destruct (recall_fill _ _ [] 0); cbn. repeat split; auto; symmetry; apply Hid. }
  cbn [focus_matches].
  destruct (String.eqb q "") eqn:Eq.
  { destruct (recall_fill _ _ [] 0); cbn. repeat split; auto; symmetry; apply Hid. }
  destruct (search_archival_store mm1 q 5 None) as (Ha & Hc & Hr & Hx).
  destruct (search_archival mm1 q 5 None) as [rs mm2] eqn:ES. cbn [snd] in *.
  assert (Hx' : archival_index mm2 =
     map (fun kb => (fst kb, if (negb false && Nat.ltb 0 (archival_score q (snd kb)))%bool
                            then bump_access (snd kb) else snd kb)) (archival_index mm)).
  { rewrite Hx. simpl. rewrite search_loop_no_filter. reflexivity. }
  destruct rs as [|b bs]; [|destruct (_ <? _)];
    destruct (recall_fill _ _ [] 0); cbn; rewrite Ha, Hc, Hr; simpl; auto.
Qed.

(** ** C5: skill execution *)

(** (C5) A handler raising [KeyboardInterrupt] (a [BaseException] that is not
    an [Exception]) is not caught by [except Exception]: the exception
    propagates out of [SkillRegistry.execute]. *)
Lemma execute_keyboard_interrupt_cex :
  execute [("interrupted"%string, interrupted_skill)] "interrupted" [] 0 0
  = Raise (mkExc "KeyboardInterrupt" BaseExceptionOnly "").
Proof. reflexivity. Qed.

(** (C5, amended) [SkillRegistry.execute] on an unregistered name returns a
    failing [SkillResult] naming the skill; a handler that raises an exception
    of class [Exception] (or a subclass) is seen by the caller only as a
    [SkillResult] with [success = false] and [str(e)] in [error]; a
    [BaseException]-only exception raised by the handler ([SystemExit],
    [KeyboardInterrupt], [GeneratorExit]) is not caught and propagates out of
    [execute], and these are the only exceptions that leave [execute]. *)
Theorem execute_contains_exceptions :
  forall (reg : Registry) (name : string) (kwargs : list (string * PyValue)) (t0 t1 : Q),
    (dict_get name reg = None ->
       execute reg name kwargs t0 t1
       = Ok (mkResult false VNone (Some ("Skill '" +++ name +++ "' not found")) 0)) /\
    (forall sk e, dict_get name reg = Some sk -> skill_execute sk kwargs = Raises e ->
       is_Exception e = true ->
       execute reg name kwargs t0 t1 = Ok (mkResult false VNone (Some (exc_msg e)) (t1 - t0))) /\
    (forall sk e, dict_get name reg = Some sk -> skill_execute sk kwargs = Raises e ->
       is_Exception e = false ->
       execute reg name kwargs t0 t1 = Raise e) /\
    (forall e, execute reg name kwargs t0 t1 = Raise e ->
       exists sk, dict_get name reg = Some sk /\ skill_execute sk kwargs = Raises e /\
                  is_Exception e = false).
Proof.
  intros reg name kwargs t0 t1. unfold execute.
  split; [|split; [|split]].
  - intros H; rewrite H; reflexivity.
  - intros sk e Hg Hx He. rewrite Hg, Hx, He. reflexivity.
  - intros sk e Hg Hx He. rewrite Hg, Hx, He. reflexivity.
  - intros e. destruct (dict_get name reg) as [sk|]; [|discriminate].
    destruct (skill_execute sk kwargs) as [r|e'] eqn:Hx; [discriminate|].
    destruct (is_Exception e') eqn:He; [discriminate|].
    intros H; injection H as <-. exists sk; auto.
Qed.

(** ** The heartbeat cycle *)

Section HeartbeatProofs.

Variable heartbeat_prompt : string -> Z -> string.
Variable local_prompt : string -> string -> string.
Variable build_status_block : HeartbeatProtocol -> string.
Variable llm_chat : list Message -> option (list string) -> PyResult ChatResponse.
Variable tool_json : string -> PyValue -> PyResult string.
Variables start_time finish_time : Q.

Lemma last_opt_none {A} (l : list A) : last_opt l = None <-> l = [].
Proof.
  split; [|intros ->; reflexivity].
  induction l as [|x r IH]; simpl; auto.
  destruct r; [discriminate|]. intros H; specialize (IH H); discriminate.
Qed.

Lemma prepare_fields hp now :
  let h := prepared_state (prepare_heartbeat heartbeat_prompt local_prompt build_status_block hp now) in
  output_queue h = output_queue hp /\ stop_event h = stop_event hp /\
  heartbeat_history h = heartbeat_history hp /\ beat_count h = beat_count hp + 1 /\
  missed_beats h = missed_beats hp /\ hb_state h = HEARTBEAT /\ is_local h = is_local hp.
Proof.
  unfold prepare_heartbeat.
  destruct (build_context _ _ _ _) as [[msgs ctx] mm'].
  destruct (last_opt (user_input_queue hp)); cbn;
    destruct (is_local hp); cbn; repeat split; reflexivity.
Qed.

Lemma prepare_noop hp now h :
  prepare_heartbeat heartbeat_prompt local_prompt build_status_block hp now = NoOp h ->
  is_local hp = true /\ user_input_queue hp = [].
Proof.
  unfold prepare_heartbeat.
  destruct (build_context _ _ _ _) as [[msgs ctx] mm'].
  destruct (last_opt (user_input_queue hp)) eqn:L; cbn;
    destruct (is_local hp); cbn; try discriminate.
  intros _. split; auto. apply last_opt_none; auto.
Qed.

Lemma prepare_noop_iff hp now :
  is_local hp = true -> user_input_queue hp = [] ->
  exists h, prepare_heartbeat heartbeat_prompt local_prompt build_status_block hp now = NoOp h.
Proof.
  intros Hl Hq. unfold prepare_heartbeat. rewrite Hq. cbn [last_opt].
  destruct (build_context _ _ _ _) as [[msgs ctx] mm'].
  cbn. rewrite Hl. eexists; reflexivity.
Qed.

Lemma run_tool_calls_state hp tcs :
  outcome_state (run_tool_calls tool_json start_time finish_time hp tcs) = hp.
Proof.
  induction tcs as [|tc rest IH]; simpl; auto.
  destruct (execute _ _ _ _ _) as [r|e]; simpl; auto.
  destruct (tool_json _ _); simpl; auto.
Qed.

Lemma process_response_keeps hp r :
  let h := outcome_state (process_response tool_json start_time finish_time hp r) in
  heartbeat_history h = heartbeat_history hp /\ beat_count h = beat_count hp /\
  stop_event h = stop_event hp.
Proof.
  unfold process_response.
  destruct (message r) as [m|]; [|simpl; auto].
  set (hp1 := set_memory hp _).
  assert (K : forall o, outcome_state o = hp1 \/ outcome_state o = set_state hp1 EXECUTING ->
            let h := outcome_state
                       (match o with
                        | Done h => match resp_content m, tool_calls m with
                                    | Some c, [] => if String.eqb c "" then Done h
                                                    else Done (put_output h ("message"%string, c))
                                    | _, _ => Done h end
                        | Raised e h => Raised e h end) in
            heartbeat_history h = heartbeat_history hp /\ beat_count h = beat_count hp /\
            stop_event h = stop_event hp).
  { intros o Ho. destruct o as [h|e h]; simpl in Ho |- *;
      [destruct (resp_content m) as [c|]; [destruct (tool_calls m); [destruct (String.eqb c "")|]|]|];
      destruct Ho as [-> | ->]; simpl; auto. }
  apply K. destruct (tool_calls m) as [|tc tcs]; [left; reflexivity|].
  right. apply run_tool_calls_state.
Qed.

Lemma complete_done hp msgs ums triggered now h :
  complete_heartbeat llm_chat tool_json start_time finish_time hp msgs ums triggered now = Done h ->
  exists h', h = record_beat h' ums triggered now /\
    heartbeat_history h' = heartbeat_history hp /\ beat_count h' = beat_count hp.
Proof.
  unfold complete_heartbeat.
  destruct (call_llm_chat _ _ _) as [resp|e].
  - pose proof (process_response_keeps (set_state hp THINKING) resp) as (K1 & K2 & _).
    destruct (process_response _ _ _ _ resp) as [h0|e h0]; simpl in K1, K2.
    + intros H; injection H as <-. exists h0; auto.
    + destruct (is_Exception e); [|discriminate].
      intros H; injection H as <-. eexists; split; [reflexivity|]. simpl; auto.
  - destruct (is_Exception e); [|discriminate].
    intros H; injection H as <-. eexists; split; [reflexivity|]. simpl; auto.
Qed.

(** ** C6: backend failures inside a cycle *)

(** (C6, amended) Whenever a heartbeat pass runs a cycle whose model-backend
    call raises an exception of class [Exception] (or a subclass), the
    exception is caught inside the cycle, exactly one [("error", str(e))] entry
    is added to the output queue (its kind differs from ["message"]), the
    cycle completes (state [IDLE]) and the loop goes on to its next pass.
    When the exception derives only from [BaseException] (e.g. [SystemExit]),
    neither the cycle nor the loop's [except Exception] catches it: the pass
    ends the worker with that exception ([Crash]), and no error entry is put
    on the output queue. *)
Theorem backend_exception_reported hp triggered now hp1 msgs ums e
    (Hrun : stop_event hp = false)
    (Hprep : prepare_heartbeat heartbeat_prompt local_prompt build_status_block
               (clear_request hp) now = CallModel hp1 msgs ums)
    (Hcall : call_llm_chat llm_chat (set_state hp1 THINKING) msgs = Raise e) :
  (is_Exception e = true ->
   exists hp',
    heartbeat_loop_body heartbeat_prompt local_prompt build_status_block llm_chat tool_json
      start_time finish_time hp triggered now = Continue hp' /\
    output_queue hp' = output_queue hp ++ [("error"%string, exc_msg e)] /\
    "error"%string <> "message"%string /\
    hb_state hp' = IDLE /\ loop_goes_on hp' = true) /\
  (is_Exception e = false ->
   exists h,
    heartbeat_loop_body heartbeat_prompt local_prompt build_status_block llm_chat tool_json
      start_time finish_time hp triggered now = Crash e h /\
    output_queue h = output_queue hp).
Proof.
  pose proof (prepare_fields (clear_request hp) now) as (F1 & F2 & _).
  rewrite Hprep in F1, F2. simpl in F1, F2.
  unfold heartbeat_loop_body. simpl (stop_event (clear_request hp)). rewrite Hrun.
  unfold execute_heartbeat. rewrite Hprep.
  unfold complete_heartbeat. rewrite Hcall.
  split; intros Hexc; rewrite Hexc.
  - eexists; split; [reflexivity|].
    simpl. rewrite F1. repeat split; try reflexivity.
    + discriminate.
    + unfold loop_goes_on. simpl. rewrite F2, Hrun. reflexivity.
  - eexists; split; [simpl; rewrite Hexc; reflexivity|]. simpl. exact F1.
Qed.

(** ** C8: how a cycle ends *)

(** (C8, amended) Every heartbeat cycle that reaches the model call (the
    backend is tool-capable, or user input was queued) and completes without an
    exception escaping it ends by appending a [HeartbeatEvent] for the new beat
    number to the bounded history, resetting [missed_beats] to 0 and returning
    to [IDLE].  A cycle of a local backend with no queued input returns early
    at the [return] of the source, without calling the model and without
    recording a [HeartbeatEvent]. *)
Theorem execute_heartbeat_records :
  forall hp triggered now,
    (forall h,
       execute_heartbeat heartbeat_prompt local_prompt build_status_block llm_chat tool_json
         start_time finish_time hp triggered now = Done h ->
       (is_local hp = false \/ user_input_queue hp <> []) ->
       (exists ev, heartbeat_history h = deque_append 100 (heartbeat_history hp) ev /\
                   beat_id ev = beat_count hp + 1) /\
       missed_beats h = 0 /\ hb_state h = IDLE) /\
    (is_local hp = true -> user_input_queue hp = [] ->
       exists h,
         prepare_heartbeat heartbeat_prompt local_prompt build_status_block hp now = NoOp h /\
         execute_heartbeat heartbeat_prompt local_prompt build_status_block llm_chat tool_json
           start_time finish_time hp triggered now = Done h /\
         heartbeat_history h = heartbeat_history hp).
Proof.
  intros hp triggered now. split.
  - intros h Hx Hcase. unfold execute_heartbeat in Hx.
    pose proof (prepare_fields hp now) as (_ & _ & F3 & F4 & _).
    destruct (prepare_heartbeat _ _ _ hp now) as [h0|h0 msgs ums] eqn:Hp.
    + apply prepare_noop in Hp as [Hl Hq].
      destruct Hcase as [Hc|Hc]; congruence.
    + simpl in F3, F4.
      apply complete_done in Hx as (h' & -> & H1 & H2).
      unfold record_beat; cbn [heartbeat_history missed_beats hb_state].
      rewrite H1, F3. split; [|split; reflexivity].
      eexists; split; [reflexivity|]. cbn [beat_id]. congruence.
  - intros Hl Hq. destruct (prepare_noop_iff hp now Hl Hq) as [h Hp].
    pose proof (prepare_fields hp now) as (_ & _ & F3 & _).
    rewrite Hp in F3. simpl in F3.
    exists h. unfold execute_heartbeat. rewrite Hp. auto.
Qed.

(** ** C9: stopping the scheduler *)


End HeartbeatProofs.

(** (C6) A backend raising [SystemExit] (a [BaseException] that is not an
    [Exception]) is caught neither by the cycle's [except] clauses nor by the
    loop's [except Exception]: the exception ends the worker. *)
Lemma backend_system_exit_cex :
  match heartbeat_loop_body sample_heartbeat_prompt sample_local_prompt sample_status_block
          (failing_backend BaseExceptionOnly "SystemExit") sample_json 0 0
          (example_hp false true ["hello"%string]) true "now" with
  | Crash e _ => exc_name e = "SystemExit"%string
  | _ => False
  end.
Proof. vm_compute. reflexivity. Qed.

Lemma backend_exception_reported_witness :
  let hp := example_hp false true ["hello"%string] in
  let eR := mkExc "ResponseError" ExceptionClass "backend failure" in
  let eS := mkExc "SystemExit" BaseExceptionOnly "backend failure" in
  stop_event hp = false /\
  (exists hp1 msgs ums,
    prepare_heartbeat sample_heartbeat_prompt sample_local_prompt sample_status_block
      (clear_request hp) "now" = CallModel hp1 msgs ums /\
    call_llm_chat (failing_backend ExceptionClass "ResponseError") (set_state hp1 THINKING) msgs
      = Raise eR /\
    is_Exception eR = true /\
    exists hp',
      heartbeat_loop_body sample_heartbeat_prompt sample_local_prompt sample_status_block
        (failing_backend ExceptionClass "ResponseError") sample_json 0 0 hp true "now"
        = Continue hp' /\
      output_queue hp' = output_queue hp ++ [("error"%string, exc_msg eR)] /\
      "error"%string <> "message"%string /\
      hb_state hp' = IDLE /\ loop_goes_on hp' = true) /\
  (exists hp1 msgs ums,
    prepare_heartbeat sample_heartbeat_prompt sample_local_prompt sample_status_block
      (clear_request hp) "now" = CallModel hp1 msgs ums /\
    call_llm_chat (failing_backend BaseExceptionOnly "SystemExit") (set_state hp1 THINKING) msgs
      = Raise eS /\
    is_Exception eS = false /\
    exists h,
      heartbeat_loop_body sample_heartbeat_prompt sample_local_prompt sample_status_block
        (failing_backend BaseExceptionOnly "SystemExit") sample_json 0 0 hp true "now"
        = Crash eS h /\
      output_queue h = output_queue hp).
Proof.
  intros hp eR eS.
  remember (prepare_heartbeat sample_heartbeat_prompt sample_local_prompt sample_status_block
              (clear_request hp) "now") as p eqn:Hp.
  destruct p as [h|hp1 msgs ums].
  - vm_compute in Hp. discriminate Hp.
  - split; [reflexivity|]. split.
    + exists hp1, msgs, ums.
      split; [reflexivity|]. split; [reflexivity|]. split; [reflexivity|].
      apply (backend_exception_reported sample_heartbeat_prompt sample_local_prompt
               sample_status_block (failing_backend ExceptionClass "ResponseError") sample_json
               0 0 hp true "now" hp1 msgs ums eR);
        [reflexivity | symmetry; exact Hp | reflexivity | reflexivity].
    + exists hp1, msgs, ums.
      split; [reflexivity|]. split; [reflexivity|]. split; [reflexivity|].
      apply (backend_exception_reported sample_heartbeat_prompt sample_local_prompt
               sample_status_block (failing_backend BaseExceptionOnly "SystemExit") sample_json
               0 0 hp true "now" hp1 msgs ums eS);
        [reflexivity | symmetry; exact Hp | reflexivity | reflexivity].
Defined.

(** (C8) A local backend with nothing queued: the cycle returns early and the
    history is still empty; no [HeartbeatEvent] is recorded. *)
Lemma local_idle_cycle_records_nothing_cex :
  match execute_heartbeat sample_heartbeat_prompt sample_local_prompt sample_status_block
          (failing_backend ExceptionClass "ResponseError") sample_json 0 0
          (example_hp true false []) true "now" with
  | Done h => heartbeat_history (example_hp true false []) = [] /\ heartbeat_history h = []
  | Raised _ _ => False
  end.
Proof. vm_compute. split; reflexivity. Qed.


(** * Further properties of the code *)

(** *** Strings, dictionaries and slices *)

Lemma length_string_of_list_ascii (l : list ascii) :
  String.length (string_of_list_ascii l) = List.length l.
Proof. induction l as [|c r IH]; simpl; auto. Qed.

Lemma length_list_ascii_of_string (s : string) :
  List.length (list_ascii_of_string s) = String.length s.
Proof. induction s as [|c r IH]; simpl; auto. Qed.

Lemma length_sapp (a b : string) :
  String.length (a +++ b) = (String.length a + String.length b)%nat.
Proof. induction a as [|c r IH]; simpl; auto. Qed.

Lemma py_slice_index_Z (i : Z) (len : nat) :
  Z.of_nat (py_slice_index i len) =
  if i <? 0 then Z.max 0 (i + Z.of_nat len) else Z.min i (Z.of_nat len).
Proof.
  unfold py_slice_index. destruct (i <? 0) eqn:E.
  - rewrite Z2Nat.id; lia.
  - apply Z.ltb_ge in E. rewrite Z2Nat.id; lia.
Qed.

Lemma py_slice_index_le (i : Z) (len : nat) : (py_slice_index i len <= len)%nat.
Proof.
  pose proof (py_slice_index_Z i len) as H.
  apply Nat2Z.inj_le. rewrite H. destruct (i <? 0) eqn:E; [apply Z.ltb_lt in E|]; lia.
Qed.

Lemma length_str_take (stop : Z) (s : string) :
  String.length (str_take stop s) = py_slice_index stop (String.length s).
Proof.
  unfold str_take, py_take. rewrite length_string_of_list_ascii, length_firstn.
  rewrite length_list_ascii_of_string. pose proof (py_slice_index_le stop (String.length s)). lia.
Qed.

Lemma dict_get_none_iff {V} (k : string) (d : list (string * V)) :
  dict_get k d = None <-> ~ In k (map fst d).
Proof.
  induction d as [|[k' v] r IH]; simpl; [tauto|].
  destruct (String.eqb k k') eqn:E.
  - apply String.eqb_eq in E; subst. split; [discriminate | intros H; exfalso; auto].
  - apply String.eqb_neq in E. rewrite IH. split; intros H; [intros [H'|H']; auto|auto].
Qed.

Lemma dict_mem_iff {V} (k : string) (d : list (string * V)) :
  dict_mem k d = true <-> In k (map fst d).
Proof.
  unfold dict_mem. pose proof (dict_get_none_iff k d) as H.
  destruct (dict_get k d); split; intros; auto; try discriminate.
  - destruct (in_dec string_dec k (map fst d)); auto. exfalso. apply H in n. discriminate.
  - exfalso. apply H; auto.
Qed.

Lemma in_keys_dict_del {V} (x k : string) (d : list (string * V)) :
  In x (map fst (dict_del k d)) -> In x (map fst d).
Proof.
  induction d as [|[k' v] r IH]; simpl; auto.
  destruct (String.eqb k k'); simpl; intuition.
Qed.

Lemma dict_del_nodup {V} (k : string) (d : list (string * V)) :
  NoDup (map fst d) -> NoDup (map fst (dict_del k d)).
Proof.
  induction d as [|[k' v] r IH]; simpl; intros Hnd; auto.
  inversion Hnd as [|? ? Hn Hnd']; subst.
  destruct (String.eqb k k'); simpl; auto.
  constructor; auto. intros Hin. apply Hn. eapply in_keys_dict_del; eauto.
Qed.

Lemma dict_get_del_same {V} (k : string) (d : list (string * V)) :
  NoDup (map fst d) -> dict_get k (dict_del k d) = None.
Proof.
  induction d as [|[k' v] r IH]; simpl; intros Hnd; auto.
  inversion Hnd as [|? ? Hn Hnd']; subst.
  destruct (String.eqb k k') eqn:E.
  - apply String.eqb_eq in E; subst. apply dict_get_none_iff; auto.
  - simpl. rewrite E. auto.
Qed.

Lemma dict_get_del_other {V} (k k2 : string) (d : list (string * V)) :
  k2 <> k -> dict_get k2 (dict_del k d) = dict_get k2 d.
Proof.
  intros Hne. induction d as [|[k' v] r IH]; simpl; auto.
  destruct (String.eqb k k') eqn:E.
  - apply String.eqb_eq in E; subst k'.
    destruct (String.eqb k2 k) eqn:E2; auto. apply String.eqb_eq in E2; congruence.
  - simpl. destruct (String.eqb k2 k'); auto.
Qed.

Lemma dict_del_absent {V} (k : string) (d : list (string * V)) :
  dict_get k d = None -> dict_del k d = d.
Proof.
  induction d as [|[k' v] r IH]; simpl; auto.
  destruct (String.eqb k k'); [discriminate|]. intros H; rewrite IH; auto.
Qed.

Lemma dict_del_set_fresh {V} (k : string) (v : V) (d : list (string * V)) :
  dict_get k d = None -> dict_del k (dict_set k v d) = d.
Proof.
  induction d as [|[k' v'] r IH]; simpl.
  - rewrite String.eqb_refl. auto.
  - destruct (String.eqb k k') eqn:E; [discriminate|].
    intros H. simpl. rewrite E, IH; auto.
Qed.

Lemma length_dict_del {V} (k : string) (d : list (string * V)) :
  In k (map fst d) -> S (List.length (dict_del k d)) = List.length d.
Proof.
  induction d as [|[k' v] r IH]; simpl; [tauto|].
  destruct (String.eqb k k') eqn:E; auto.
  apply String.eqb_neq in E. intros [H|H]; [congruence|]. simpl. rewrite IH; auto.
Qed.

Lemma length_dict_set {V} (k : string) (v : V) (d : list (string * V)) :
  List.length (dict_set k v d) = (List.length d + if dict_mem k d then 0 else 1)%nat.
Proof.
  unfold dict_mem. induction d as [|[k' v'] r IH]; simpl; auto.
  destruct (String.eqb k k'); simpl; auto.
Qed.

Lemma core_total_dict_del (c : list (string * MemoryBlock)) (key : string) :
  (core_total (dict_del key c) <= core_total c)%nat.
Proof.
  unfold core_total. induction c as [|[k b] r IH]; simpl; auto.
  destruct (String.eqb key k); simpl; lia.
Qed.

Lemma record_eta (mm : MemoryManager) :
  mkMemory (agent_id mm) (core mm) (recall mm) (archival_index mm) = mm.
Proof. destruct mm; reflexivity. Qed.

(** *** Utils.truncate *)

(** (Utils.truncate) A text no longer than [max_len] is returned unchanged.
    When [3 <= max_len] and the text is longer, the result is its first
    [max_len - 3] characters followed by ["..."], exactly [max_len] characters.
    When [max_len < 3] and the text is longer, the slice [text[:max_len-3]]
    counts from the end, and the result has [max(0, len + max_len - 3) + 3]
    characters, more than [max_len]. *)
Theorem truncate_spec (text : string) (max_len : Z) :
  (Z.of_nat (String.length text) <= max_len -> truncate text max_len = text) /\
  (3 <= max_len < Z.of_nat (String.length text) ->
     Z.of_nat (String.length (truncate text max_len)) = max_len /\
     truncate text max_len = str_take (max_len - 3) text +++ "..." /\
     list_ascii_of_string (str_take (max_len - 3) text)
       = firstn (Z.to_nat (max_len - 3)) (list_ascii_of_string text)) /\
  (max_len < 3 -> max_len < Z.of_nat (String.length text) ->
     Z.of_nat (String.length (truncate text max_len))
       = Z.max 0 (Z.of_nat (String.length text) + max_len - 3) + 3 /\
     max_len < Z.of_nat (String.length (truncate text max_len))).
Proof.
  unfold truncate. split; [|split].
  - intros H. destruct (max_len <? _) eqn:E; auto. apply Z.ltb_lt in E. lia.
  - intros H. assert (E : (max_len <? Z.of_nat (String.length text)) = true) by (apply Z.ltb_lt; lia).
    rewrite E. split; [|split; [reflexivity|]].
    + rewrite length_sapp, Nat2Z.inj_add, length_str_take, py_slice_index_Z. simpl.
      destruct (max_len - 3 <? 0) eqn:E2; [apply Z.ltb_lt in E2; lia|]. lia.
    + unfold str_take, py_take. rewrite list_ascii_of_string_of_list_ascii. f_equal.
      apply Nat2Z.inj. rewrite py_slice_index_Z, length_list_ascii_of_string.
      destruct (max_len - 3 <? 0) eqn:E2; [apply Z.ltb_lt in E2; lia|]. rewrite Z2Nat.id; lia.
  - intros H1 H2. assert (E : (max_len <? Z.of_nat (String.length text)) = true) by (apply Z.ltb_lt; lia).
    rewrite E. rewrite length_sapp, Nat2Z.inj_add, length_str_take, py_slice_index_Z. simpl.
    assert (E2 : (max_len - 3 <? 0) = true) by (apply Z.ltb_lt; lia). rewrite E2.
    split; [lia|]. lia.
Qed.

(** *** Deleting core blocks *)

(** (MemoryManager.delete_core_memory) On a core store with distinct keys,
    [delete_core_memory(key)] returns [True] exactly when [key] is present;
    afterwards [key] is absent, every other key holds the block it held, the
    keys stay distinct and the total content length does not grow. *)
Theorem delete_core_memory_spec (c : list (string * MemoryBlock)) (key : string)
    (Hnd : NoDup (map fst c)) :
  let '(ok, c') := delete_core_memory c key in
  (ok = true <-> In key (map fst c)) /\
  dict_get key c' = None /\
  (forall k, k <> key -> dict_get k c' = dict_get k c) /\
  NoDup (map fst c') /\
  (core_total c' <= core_total c)%nat.
Proof.
  unfold delete_core_memory. destruct (dict_mem key c) eqn:M.
  - apply dict_mem_iff in M. split; [tauto|].
    split; [apply dict_get_del_same; auto|].
    split; [intros k Hk; apply dict_get_del_other; auto|].
    split; [apply dict_del_nodup; auto | apply core_total_dict_del].
  - split; [split; [discriminate | intros H; apply dict_mem_iff in H; congruence]|].
    split; [apply dict_get_none_iff; intros H; apply dict_mem_iff in H; congruence|].
    split; [auto|]. split; auto.
Qed.

Lemma delete_core_memory_spec_witness :
  NoDup (map fst (core one_core_store)) /\
  let '(ok, c') := delete_core_memory (core one_core_store) "persona" in
  (ok = true <-> In "persona"%string (map fst (core one_core_store))) /\
  dict_get "persona" c' = None /\
  (forall k, k <> "persona"%string -> dict_get k c' = dict_get k (core one_core_store)) /\
  NoDup (map fst c') /\
  (core_total c' <= core_total (core one_core_store))%nat.
Proof.
  assert (H : NoDup (map fst (core one_core_store))) by (simpl; constructor; [simpl; tauto | constructor]).
  split; [exact H|]. exact (delete_core_memory_spec (core one_core_store) "persona" H).
Defined.

Lemma run_core_ops_inv hash ops c :
  NoDup (map fst c) -> (core_total c <= CORE_MEMORY_LIMIT)%nat ->
  NoDup (map fst (run_core_ops hash ops c)) /\
  (core_total (run_core_ops hash ops c) <= CORE_MEMORY_LIMIT)%nat.
Proof.
  revert c; induction ops as [|[now key text|key] rest IH]; intros c Hnd Hle; simpl; auto.
  - destruct (update_core_memory_step hash now c key text Hnd) as [Hnd' Hle'].
    apply IH; auto.
  - apply IH; unfold delete_core_memory; destruct (dict_mem key c); simpl; auto.
    + apply dict_del_nodup; auto.
    + pose proof (core_total_dict_del c key); lia.
Qed.

(** (MemoryManager.update_core_memory, delete_core_memory) From a core store
    with distinct keys within [CORE_MEMORY_LIMIT], every sequence of
    [update_core_memory] and [delete_core_memory] calls, in any interleaving,
    keeps the keys distinct and the total content length within the limit. *)
Theorem core_ops_within_limit (hash_content : string -> string) (ops : list CoreOp)
    (c : list (string * MemoryBlock))
    (Hnd : NoDup (map fst c)) (Hle : (core_total c <= CORE_MEMORY_LIMIT)%nat) :
  NoDup (map fst (run_core_ops hash_content ops c)) /\
  (core_total (run_core_ops hash_content ops c) <= CORE_MEMORY_LIMIT)%nat.
Proof. apply run_core_ops_inv; auto. Qed.

Lemma core_ops_within_limit_witness :
  NoDup (map fst (core one_core_store)) /\
  (core_total (core one_core_store) <= CORE_MEMORY_LIMIT)%nat /\
  let c' := run_core_ops (fun s => s)
              [CoreDelete "persona"; CoreUpdate "t1" "user_info" "unknown";
               CoreUpdate "t2" "persona" "I am Nexuss."]%string (core one_core_store) in
  NoDup (map fst c') /\ (core_total c' <= CORE_MEMORY_LIMIT)%nat.
Proof.
  assert (H1 : NoDup (map fst (core one_core_store))) by (simpl; constructor; [simpl; tauto | constructor]).
  assert (H2 : (core_total (core one_core_store) <= CORE_MEMORY_LIMIT)%nat) by (vm_compute; lia).
  split; [exact H1|]. split; [exact H2|].
  exact (core_ops_within_limit (fun s => s) _ _ H1 H2).
Defined.

(** *** Archival blocks: adding and deleting *)

(** (MemoryManager.add_to_archival) [add_to_archival] returns the id
    ["arch_" + hash_content(content) + "_" + str(int(time.time()))] and stores
    under it an [ARCHIVAL] block with the content, the tags ([[]] for [None]),
    the importance and an [access_count] of 0; every other id keeps its block;
    the number of blocks grows by one when the id is new and stays the same
    when it is not (a block added with the same content in the same second is
    replaced); core and recall are untouched. *)
Theorem add_to_archival_spec (hash_content : string -> string) (secs now : string)
    (mm : MemoryManager) (text : string) (tag_arg : option (list string)) (imp : Q) :
  let '(bid, mm') := add_to_archival hash_content secs now mm text tag_arg imp in
  bid = "arch_" +++ hash_content text +++ "_" +++ secs /\
  dict_get bid (archival_index mm') =
    Some (mkBlock bid text ARCHIVAL now now imp 0
            (match tag_arg with Some ts => ts | None => [] end)) /\
  (forall k, k <> bid -> dict_get k (archival_index mm') = dict_get k (archival_index mm)) /\
  List.length (archival_index mm') =
    (List.length (archival_index mm) + if dict_mem bid (archival_index mm) then 0 else 1)%nat /\
  core mm' = core mm /\ recall mm' = recall mm.
Proof.
  unfold add_to_archival. cbn [archival_index core recall].
  split; [reflexivity|]. split; [apply dict_get_set_same|].
  split; [intros k Hk; apply dict_get_set_other; auto|].
  split; [apply length_dict_set|]. auto.
Qed.

(** (MemoryManager.add_to_archival, delete_archival) When no block is stored
    under the id [add_to_archival] computes, deleting that id right after the
    call returns [True] and gives back the store as it was before the call. *)
Theorem add_then_delete_archival (hash_content : string -> string) (secs now : string)
    (mm : MemoryManager) (text : string) (tag_arg : option (list string)) (imp : Q)
    (Hfresh : dict_get ("arch_" +++ hash_content text +++ "_" +++ secs) (archival_index mm) = None) :
  let '(bid, mm') := add_to_archival hash_content secs now mm text tag_arg imp in
  delete_archival mm' bid = (true, mm).
Proof.
  unfold add_to_archival, delete_archival. cbn [archival_index core recall agent_id].
  unfold dict_mem. rewrite dict_get_set_same.
  rewrite dict_del_set_fresh by auto. rewrite record_eta. reflexivity.
Qed.

Lemma add_then_delete_archival_witness :
  dict_get ("arch_" +++ "h" +++ "_" +++ "1700000000") (archival_index example_archive) = None /\
  let '(bid, mm') := add_to_archival (fun _ => "h"%string) "1700000000" "now" example_archive
                       "note" (Some ["work"%string]) (1 # 2) in
  delete_archival mm' bid = (true, example_archive).
Proof.
  assert (H : dict_get ("arch_" +++ "h" +++ "_" +++ "1700000000") (archival_index example_archive) = None)
    by reflexivity.
  split; [exact H|].
  exact (add_then_delete_archival (fun _ => "h"%string) "1700000000" "now" example_archive
           "note" (Some ["work"%string]) (1 # 2) H).
Defined.

(** (MemoryManager.delete_archival) On an archival index with distinct ids,
    [delete_archival(block_id)] returns [True] exactly when the id is present,
    in which case the block is gone, every other id keeps its block and the
    index has one block less; otherwise the store is unchanged. *)
Theorem delete_archival_spec (mm : MemoryManager) (block_id : string)
    (Hnd : NoDup (map fst (archival_index mm))) :
  let '(ok, mm') := delete_archival mm block_id in
  (ok = true <-> In block_id (map fst (archival_index mm))) /\
  dict_get block_id (archival_index mm') = None /\
  (forall k, k <> block_id -> dict_get k (archival_index mm') = dict_get k (archival_index mm)) /\
  (ok = true -> S (List.length (archival_index mm')) = List.length (archival_index mm)) /\
  (ok = false -> mm' = mm) /\
  core mm' = core mm /\ recall mm' = recall mm.
Proof.
  unfold delete_archival. destruct (dict_mem block_id (archival_index mm)) eqn:M.
  - apply dict_mem_iff in M. cbn [archival_index core recall].
    split; [tauto|]. split; [apply dict_get_del_same; auto|].
    split; [intros k Hk; apply dict_get_del_other; auto|].
    split; [intros _; apply length_dict_del; auto|]. split; [discriminate|]. auto.
  - split; [split; [discriminate | intros H; apply dict_mem_iff in H; congruence]|].
    split; [apply dict_get_none_iff; intros H; apply dict_mem_iff in H; congruence|].
    split; [auto|]. split; [discriminate|]. auto.
Qed.

Lemma delete_archival_spec_witness :
  NoDup (map fst (archival_index example_archive)) /\
  let '(ok, mm') := delete_archival example_archive "a" in
  (ok = true <-> In "a"%string (map fst (archival_index example_archive))) /\
  dict_get "a" (archival_index mm') = None /\
  (forall k, k <> "a"%string ->
     dict_get k (archival_index mm') = dict_get k (archival_index example_archive)) /\
  (ok = true -> S (List.length (archival_index mm')) = List.length (archival_index example_archive)) /\
  (ok = false -> mm' = example_archive) /\
  core mm' = core example_archive /\ recall mm' = recall example_archive.
Proof.
  assert (H : NoDup (map fst (archival_index example_archive))).
  { simpl. constructor; [simpl; intros [H|[]]; discriminate | constructor; [simpl; tauto | constructor]]. }
  split; [exact H|]. exact (delete_archival_spec example_archive "a" H).
Defined.

(** *** Searching with a blank query *)

Lemma space_not_upper (c : ascii) : py_isspace c = true -> is_upper_ascii c = false.
Proof.
  unfold py_isspace, is_upper_ascii. intros H.
  apply Bool.orb_true_iff in H.
  destruct H as [H|H]; apply Bool.andb_true_iff in H as [H1 H2];
    apply Nat.leb_le in H1; apply Nat.leb_le in H2;
    apply Bool.andb_false_iff; left; apply Nat.leb_gt; lia.
Qed.

Lemma py_lower_all_space (s : string) : all_space s = true -> py_lower s = s.
Proof.
  unfold all_space. induction s as [|c r IH]; simpl; auto.
  intros H. apply Bool.andb_true_iff in H as [Hc Hr].
  rewrite space_not_upper by auto. rewrite IH; auto.
Qed.

Lemma split_go_all_space (s : string) : all_space s = true -> split_go s [] = [].
Proof.
  unfold all_space. induction s as [|c r IH]; simpl; auto.
  intros H. apply Bool.andb_true_iff in H as [Hc Hr]. rewrite Hc. auto.
Qed.

Lemma search_loop_no_words tf blocks : search_loop [] tf blocks = (blocks, []).
Proof.
  induction blocks as [|[k b] rest IH]; simpl; auto.
  rewrite IH. destruct (negb (tag_ok tf b)); reflexivity.
Qed.

(** (MemoryManager.search_archival) A query that is empty or made only of
    whitespace has no words: [search_archival] returns no block, whatever the
    limit and the tag filter, and changes no [access_count]. *)
Theorem search_archival_blank_query (mm : MemoryManager) (query : string) (limit : Z)
    (tag_filter : option (list string)) (Hq : all_space query = true) :
  search_archival mm query limit tag_filter = ([], mm).
Proof.
  unfold search_archival, query_words, py_split.
  rewrite py_lower_all_space, split_go_all_space by auto. cbn [nodup].
  rewrite search_loop_no_words. unfold py_take, sort_desc. simpl. rewrite firstn_nil, record_eta. reflexivity.
Qed.

Lemma search_archival_blank_query_witness :
  all_space " 	 " = true /\ search_archival example_archive " 	 " 5 None = ([], example_archive).
Proof.
  assert (H : all_space " 	 " = true) by reflexivity.
  split; [exact H | exact (search_archival_blank_query example_archive " 	 " 5 None H)].
Defined.

(** *** Reading the recall buffer *)

(** (MemoryManager.get_recall_messages) A negative limit [-k] is truthy and
    [msgs[k:]] drops the [k] oldest messages: [get_recall_messages(-k)] returns
    the buffer without its [k] oldest entries (nothing when [k] is at least the
    buffer's length). *)
Theorem get_recall_messages_negative (mm : MemoryManager) (k : Z) (Hk : 0 < k) :
  get_recall_messages mm (Some (- k)) = skipn (Z.to_nat k) (recall mm).
Proof.
  unfold get_recall_messages. destruct (Z.eqb (- k) 0) eqn:E; [apply Z.eqb_eq in E; lia|].
  unfold py_drop, py_slice_index. rewrite Z.opp_involutive.
  destruct (k <? 0) eqn:E2; [apply Z.ltb_lt in E2; lia|].
  destruct (Nat.le_gt_cases (Z.to_nat k) (List.length (recall mm))) as [L|L].
  - rewrite Z.min_l by lia. reflexivity.
  - rewrite Z.min_r by lia. rewrite Nat2Z.id.
    rewrite !skipn_all2 by lia. reflexivity.
Qed.

Lemma get_recall_messages_negative_witness :
  0 < 1 /\
  get_recall_messages (add_to_recall (add_to_recall example_archive (mkMessage user (Some "a"%string)))
                         (mkMessage assistant (Some "b"%string))) (Some (- 1))
  = skipn 1 [mkMessage user (Some "a"%string); mkMessage assistant (Some "b"%string)].
Proof.
  split; [lia|].
  exact (get_recall_messages_negative _ 1 ltac:(lia)).
Defined.

Lemma deque_append_lastn {A} (n : nat) (l : list A) (x : A) :
  deque_append n (lastn n l) x = lastn n (l ++ [x]).
Proof.
  unfold deque_append, lastn. rewrite length_app. simpl.
  set (k := (List.length l - n)%nat).
  assert (E : skipn k l ++ [x] = skipn k (l ++ [x])).
  { rewrite skipn_app. replace (k - List.length l)%nat with 0%nat by (unfold k; lia). reflexivity. }
  rewrite E, length_skipn, length_app. simpl.
  match goal with |- context [Nat.ltb ?a ?b] => destruct (Nat.ltb a b) eqn:L end.
  - apply Nat.ltb_lt in L.
    replace (tl (skipn k (l ++ [x]))) with (skipn 1 (skipn k (l ++ [x])))
      by (destruct (skipn k (l ++ [x])); reflexivity).
    rewrite skipn_skipn. f_equal. unfold k in *; lia.
  - apply Nat.ltb_ge in L. f_equal. unfold k in *; lia.
Qed.

Lemma fold_add_to_recall_lastn msgs : forall mm l,
  recall mm = lastn RECALL_MEMORY_LIMIT l ->
  recall (fold_left add_to_recall msgs mm) = lastn RECALL_MEMORY_LIMIT (l ++ msgs).
Proof.
  induction msgs as [|m rest IH]; intros mm l H; simpl.
  - rewrite app_nil_r. auto.
  - rewrite (IH _ (l ++ [m])), <- app_assoc; auto.
    simpl. rewrite H. apply deque_append_lastn.
Qed.

(** (MemoryManager.add_to_recall, get_recall_messages) From a buffer within
    its capacity, after appending a non-empty sequence of at most
    [RECALL_MEMORY_LIMIT] messages, [get_recall_messages(len(msgs))] returns
    exactly those messages, in the order they were appended. *)
Theorem recall_append_then_read (mm : MemoryManager) (msgs : list Message)
    (Hcap : (List.length (recall mm) <= RECALL_MEMORY_LIMIT)%nat)
    (Hne : msgs <> []) (Hle : (List.length msgs <= RECALL_MEMORY_LIMIT)%nat) :
  get_recall_messages (fold_left add_to_recall msgs mm) (Some (Z.of_nat (List.length msgs))) = msgs.
Proof.
  assert (H0 : recall mm = lastn RECALL_MEMORY_LIMIT (recall mm)).
  { unfold lastn. replace (List.length (recall mm) - RECALL_MEMORY_LIMIT)%nat with 0%nat by lia.
    reflexivity. }
  unfold get_recall_messages. rewrite (fold_add_to_recall_lastn msgs mm (recall mm) H0).
  assert (Hk : (1 <= List.length msgs)%nat) by (destruct msgs; [congruence | simpl; lia]).
  destruct (Z.eqb (Z.of_nat (List.length msgs)) 0) eqn:E; [apply Z.eqb_eq in E; lia|].
  unfold py_drop, lastn. rewrite length_skipn, length_app.
  set (R := recall mm) in *. set (k := List.length msgs) in *.
  unfold RECALL_MEMORY_LIMIT in *.
  assert (Hi : py_slice_index (- Z.of_nat k) (List.length R + k - (List.length R + k - 100))
               = (List.length R + k - (List.length R + k - 100) - k)%nat).
  { apply Nat2Z.inj. rewrite py_slice_index_Z.
    destruct (- Z.of_nat k <? 0) eqn:E2; [|apply Z.ltb_ge in E2; lia]. lia. }
  rewrite Hi, skipn_skipn.
  replace (List.length R + k - (List.length R + k - 100) - k + (List.length R + k - 100))%nat
    with (List.length R) by lia.
  rewrite skipn_app, skipn_all2 by lia. rewrite Nat.sub_diag. reflexivity.
Qed.

Lemma recall_append_then_read_witness :
  (List.length (recall example_archive) <= RECALL_MEMORY_LIMIT)%nat /\
  [mkMessage user (Some "hi"%string); mkMessage assistant (Some "hello"%string)] <> [] /\
  (List.length [mkMessage user (Some "hi"%string); mkMessage assistant (Some "hello"%string)]
     <= RECALL_MEMORY_LIMIT)%nat /\
  get_recall_messages
    (fold_left add_to_recall [mkMessage user (Some "hi"%string); mkMessage assistant (Some "hello"%string)]
       example_archive) (Some 2)
  = [mkMessage user (Some "hi"%string); mkMessage assistant (Some "hello"%string)].
Proof.
  assert (H1 : (List.length (recall example_archive) <= RECALL_MEMORY_LIMIT)%nat) by (vm_compute; lia).
  assert (H2 : [mkMessage user (Some "hi"%string); mkMessage assistant (Some "hello"%string)] <> [])
    by discriminate.
  assert (H3 : (List.length [mkMessage user (Some "hi"%string); mkMessage assistant (Some "hello"%string)]
                 <= RECALL_MEMORY_LIMIT)%nat) by (vm_compute; lia).
  split; [exact H1|]. split; [exact H2|]. split; [exact H3|].
  exact (recall_append_then_read example_archive _ H1 H2 H3).
Defined.

(** *** The skill registry *)

(** (SkillRegistry.register) After [register(skill)], [execute] on the
    skill's name runs that skill's handler (a skill registered earlier under
    the same name is replaced), every other name dispatches as before, the
    names keep their registration order with a new name added last, and
    distinct names stay distinct. *)
Theorem register_spec (reg : Registry) (sk : Skill) :
  let reg' := register reg sk in
  (forall kwargs t0 t1,
     execute reg' (skill_name sk) kwargs t0 t1 = execute [(skill_name sk, sk)] (skill_name sk) kwargs t0 t1) /\
  (forall n, n <> skill_name sk -> forall kwargs t0 t1, execute reg' n kwargs t0 t1 = execute reg n kwargs t0 t1) /\
  map fst reg' = (if existsb (String.eqb (skill_name sk)) (map fst reg) then map fst reg
                  else map fst reg ++ [skill_name sk]) /\
  (NoDup (map fst reg) -> NoDup (map fst reg')).
Proof.
  unfold register. split; [|split; [|split]].
  - intros kw t0 t1. unfold execute. rewrite dict_get_set_same. simpl. rewrite String.eqb_refl. reflexivity.
  - intros n Hn kw t0 t1. unfold execute. rewrite dict_get_set_other; auto.
  - apply dict_set_keys.
  - apply dict_set_nodup.
Qed.

(** (SkillRegistry.unregister) On a registry with distinct names,
    [unregister(name)] returns [True] exactly when the name is registered;
    afterwards executing that name gives the "not found" result, every other
    name dispatches as before, and the registry lists one skill less when the
    name was registered. *)
Theorem unregister_spec (reg : Registry) (name : string) (Hnd : NoDup (map fst reg)) :
  let '(ok, reg') := unregister reg name in
  (ok = true <-> In name (map fst reg)) /\
  (forall kwargs t0 t1,
     execute reg' name kwargs t0 t1
     = Ok (mkResult false VNone (Some ("Skill '" +++ name +++ "' not found")) 0)) /\
  (forall n, n <> name -> forall kwargs t0 t1, execute reg' n kwargs t0 t1 = execute reg n kwargs t0 t1) /\
  List.length reg = (List.length reg' + if ok then 1 else 0)%nat.
Proof.
  unfold unregister. destruct (dict_mem name reg) eqn:M.
  - apply dict_mem_iff in M. split; [tauto|].
    split; [intros; unfold execute; rewrite dict_get_del_same; auto|].
    split; [intros n Hn kw t0 t1; unfold execute; rewrite dict_get_del_other; auto|].
    rewrite <- (length_dict_del name reg M). lia.
  - split; [split; [discriminate | intros H; apply dict_mem_iff in H; congruence]|].
    split; [intros; unfold execute; unfold dict_mem in M; destruct (dict_get name reg); [discriminate|reflexivity]|].
    split; [auto | lia].
Qed.

Lemma unregister_spec_witness :
  NoDup (map fst [("interrupted"%string, interrupted_skill)]) /\
  let '(ok, reg') := unregister [("interrupted"%string, interrupted_skill)] "interrupted" in
  (ok = true <-> In "interrupted"%string (map fst [("interrupted"%string, interrupted_skill)])) /\
  (forall kwargs t0 t1,
     execute reg' "interrupted" kwargs t0 t1
     = Ok (mkResult false VNone (Some ("Skill '" +++ "interrupted" +++ "' not found")) 0)) /\
  (forall n, n <> "interrupted"%string -> forall kwargs t0 t1,
     execute reg' n kwargs t0 t1 = execute [("interrupted"%string, interrupted_skill)] n kwargs t0 t1) /\
  List.length [("interrupted"%string, interrupted_skill)] = (List.length reg' + if ok then 1 else 0)%nat.
Proof.
  assert (H : NoDup (map fst [("interrupted"%string, interrupted_skill)])) by (simpl; constructor; [tauto | constructor]).
  split; [exact H|]. exact (unregister_spec _ "interrupted" H).
Defined.

(** *** Stopping and restarting the scheduler *)

(** (HeartbeatProtocol.stop, start) After [stop()], [start()] restarts the
    scheduler only when no worker thread is alive: then the stop flag is
    cleared, a worker thread is set and the state is [IDLE], so the loop runs
    again.  When the old worker is still alive (the 5-second [join] of [stop()]
    timed out), [start()] returns at once: the stop flag stays set, the state
    stays [SHUTDOWN] and the loop does not run. *)
Theorem stop_then_start (hp : HeartbeatProtocol) (alive : bool) :
  let '(hp1, _) := stop hp in
  (has_thread hp = true -> alive = true ->
     start hp1 alive = hp1 /\ stop_event (start hp1 alive) = true /\
     hb_state (start hp1 alive) = SHUTDOWN /\ loop_goes_on (start hp1 alive) = false) /\
  ((has_thread hp = false \/ alive = false) ->
     stop_event (start hp1 alive) = false /\ hb_state (start hp1 alive) = IDLE /\
     has_thread (start hp1 alive) = true /\ loop_goes_on (start hp1 alive) = true).
Proof.
  unfold stop, start. cbn [has_thread set_state]. split.
  - intros H1 H2. rewrite H1, H2. simpl. auto.
  - intros [H|H]; rewrite H; [|rewrite Bool.andb_false_r]; simpl; auto.
Qed.

(** *** NexussAgent.get_response and chat *)

(** (NexussAgent.get_response, chat) Messages are collected in arrival order
    and returned, joined by newlines, at the first poll that times out after
    at least one message (later output is left for the next call).  An
    ["error"] item ends the call with ["[Error] " + content], and the messages
    collected before it are dropped.  Polls that time out before any message
    arrive are skipped.  [chat] never returns an empty string. *)
Theorem get_response_spec :
  (forall (m : string) (ms : list string) rest,
     get_response (map (fun s => Some ("message"%string, s)) (m :: ms) ++ None :: rest)
     = Some (py_join nl (m :: ms))) /\
  (forall (ms : list string) (c : string) rest,
     get_response (map (fun s => Some ("message"%string, s)) ms ++ Some ("error"%string, c) :: rest)
     = Some ("[Error] " +++ c)) /\
  (forall n rest, get_response (repeat None n ++ rest) = get_response rest) /\
  (forall polls, chat_reply polls <> ""%string).
Proof.
  assert (Msgs : forall ms acc rest,
    get_response_loop (map (fun s => Some ("message"%string, s)) ms ++ rest) acc
    = get_response_loop rest (acc ++ ms)).
  { induction ms as [|s ms IH]; intros acc rest; simpl.
    - rewrite app_nil_r. reflexivity.
    - rewrite IH, <- app_assoc. reflexivity. }
  unfold get_response. split; [|split; [|split]].
  - intros m ms rest. rewrite Msgs. simpl. reflexivity.
  - intros ms c rest. rewrite Msgs. reflexivity.
  - intros n rest. induction n; simpl; auto.
  - intros polls. unfold chat_reply.
    destruct (get_response polls) as [s|]; [|discriminate].
    destruct (String.eqb s "") eqn:E; [discriminate|]. apply String.eqb_neq; auto.
Qed.

(** *** ArchivalWriteSkill: the tag list *)

Lemma lstrip_chars_head (l : list ascii) :
  match lstrip_chars l with c :: _ => py_isspace c = false | [] => True end.
Proof.
  induction l as [|c r IH]; simpl; auto.
  destruct (py_isspace c) eqn:E; auto.
Qed.

Lemma lstrip_chars_snoc (l : list ascii) (c : ascii) :
  py_isspace c = false -> lstrip_chars (l ++ [c]) = lstrip_chars l ++ [c].
Proof.
  intros Hc. induction l as [|x r IH]; simpl.
  - rewrite Hc. reflexivity.
  - destruct (py_isspace x); auto.
Qed.

Lemma py_strip_stripped (t : string) : py_strip t <> ""%string -> is_stripped (py_strip t) = true.
Proof.
  unfold py_strip, is_stripped. rewrite list_ascii_of_string_of_list_ascii.
  pose proof (lstrip_chars_head (list_ascii_of_string t)) as Hh.
  destruct (lstrip_chars (list_ascii_of_string t)) as [|c r] eqn:L1.
  - simpl. intros H; exfalso; apply H; reflexivity.
  - intros _. simpl rev. rewrite lstrip_chars_snoc by auto.
    pose proof (lstrip_chars_head (rev r ++ [c])) as Hh2.
    rewrite lstrip_chars_snoc in Hh2 by auto.
    rewrite rev_involutive, rev_app_distr. simpl. rewrite Hh. simpl.
    destruct (lstrip_chars (rev r) ++ [c]) as [|d s] eqn:L3.
    + destruct (lstrip_chars (rev r)); discriminate L3.
    + simpl in Hh2. rewrite Hh2. reflexivity.
Qed.

(** (ArchivalWriteSkill.execute) [archival_memory_write(content, tags)]
    always succeeds, reports the new block's id, and stores the content in
    that block with importance 0.5 and the tags parsed from the
    comma-separated text: every stored tag is non-empty and has no whitespace
    at either end. *)
Theorem archival_write_spec (hash_content : string -> string) (secs now : string)
    (mm : MemoryManager) (text tags_text : string) :
  let '(res, mm') := archival_write hash_content secs now mm text tags_text in
  let bid := ("arch_" +++ hash_content text +++ "_" +++ secs)%string in
  success res = true /\ output res = VStr ("Archived: " +++ bid) /\
  exists b, dict_get bid (archival_index mm') = Some b /\ content b = text /\
    importance b = (1 # 2) /\ tags b = parse_tags tags_text /\
    Forall (fun t => is_stripped t = true) (tags b).
Proof.
  unfold archival_write, add_to_archival. cbn.
  split; [reflexivity|]. split; [reflexivity|].
  eexists; split; [apply dict_get_set_same|]. cbn.
  split; [reflexivity|]. split; [reflexivity|]. split; [reflexivity|].
  apply Forall_forall. unfold parse_tags. intros t Ht.
  apply in_map_iff in Ht as (t0 & <- & Ht0). apply filter_In in Ht0 as [_ Hne].
  apply py_strip_stripped. apply Bool.negb_true_iff, String.eqb_neq in Hne. auto.
Qed.

(** *** LocalModel.chat: the turns given to the chat template *)

Lemma last_opt_snoc {A} (l : list A) (x : A) : last_opt (l ++ [x]) = Some x.
Proof.
  induction l as [|y r IH]; simpl; auto.
  rewrite IH. destruct (r ++ [x]) eqn:E; auto. destruct r; discriminate.
Qed.

Lemma append_or_merge_roles (l : list (string * string)) (r c : string) :
  l <> [] ->
  (map fst (append_or_merge l r c) = map fst l /\ last_opt (map fst l) = Some r) \/
  (map fst (append_or_merge l r c) = map fst l ++ [r] /\ last_opt (map fst l) <> Some r).
Proof.
  intros Hne. unfold append_or_merge.
  destruct (rev l) as [|[r0 c0] rr] eqn:E.
  - exfalso. apply Hne. rewrite <- (rev_involutive l), E. reflexivity.
  - assert (El : l = rev rr ++ [(r0, c0)]) by (rewrite <- (rev_involutive l), E; reflexivity).
    rewrite El, !map_app. cbn [map fst]. rewrite last_opt_snoc.
    destruct (String.eqb r0 r) eqn:Er.
    + apply String.eqb_eq in Er; subst r0. left. rewrite map_app. auto.
    + apply String.eqb_neq in Er. right.
      split; [rewrite !map_app; reflexivity|]. intros H; injection H; auto.
Qed.

Lemma Sorted_snoc {A} (R : A -> A -> Prop) (l : list A) (x : A) :
  Sorted R l -> (forall y, last_opt l = Some y -> R y x) -> Sorted R (l ++ [x]).
Proof.
  induction l as [|a r IH]; simpl; intros Hs Hl.
  - repeat constructor.
  - inversion Hs as [|? ? Hs' Hd]; subst. constructor.
    + apply IH; auto. intros y Hy. apply Hl. destruct r; [discriminate | auto].
    + destruct r as [|b r']; simpl.
      * constructor. apply Hl. reflexivity.
      * inversion Hd; subst. constructor. auto.
Qed.

Lemma Sorted_adjacent {A} (R : A -> A -> Prop) (pre : list A) : forall a b post,
  Sorted R (pre ++ a :: b :: post) -> R a b.
Proof.
  induction pre as [|x r IH]; simpl; intros a b post Hs.
  - inversion Hs as [|? ? _ Hd]; subst. inversion Hd; auto.
  - inversion Hs; subst. eapply IH; eauto.
Qed.

Lemma append_or_merge_ok (l : list (string * string)) (r c : string) :
  Forall chat_role_ok (map fst l) -> chat_role_ok r ->
  Forall chat_role_ok (map fst (append_or_merge l r c)).
Proof.
  intros Hl Hr. destruct l as [|p l'] eqn:E.
  - simpl. constructor; auto.
  - rewrite <- E in *. destruct (append_or_merge_roles l r c) as [[H _]|[H _]]; [subst; discriminate|..];
      rewrite H; auto. apply Forall_app; auto.
Qed.

Lemma merge_loop_ok msgs : forall merged buf,
  Forall chat_role_ok (map fst merged) ->
  Forall chat_role_ok (map fst (fst (merge_loop msgs merged buf))).
Proof.
  induction msgs as [|[role0 content0] rest IH]; intros merged buf Hm; simpl; auto.
  destruct (String.eqb role0 "system") eqn:Es; [apply IH; auto|].
  assert (Hr : chat_role_ok (if String.eqb role0 "tool" then "user"%string else role0)).
  { destruct (String.eqb role0 "tool") eqn:Et.
    - split; discriminate.
    - apply String.eqb_neq in Es, Et. split; auto. }
  destruct buf as [|b bs]; [|destruct (String.eqb _ "user")];
    apply IH; apply append_or_merge_ok; auto.
Qed.

Lemma final_fold_shape rest : forall final r0,
  final <> [] -> hd_error (map fst final) = Some r0 ->
  Forall chat_role_ok (map fst final) -> Forall chat_role_ok (map fst rest) ->
  Sorted (fun a b => a <> b) (map fst final) ->
  let T := fold_left (fun f m => append_or_merge f (fst m) (snd m)) rest final in
  hd_error (map fst T) = Some r0 /\ Forall chat_role_ok (map fst T) /\
  Sorted (fun a b => a <> b) (map fst T).
Proof.
  induction rest as [|m rest IH]; intros final r0 Hne Hhd Hok Hrest Hs; simpl; auto.
  inversion Hrest as [|? ? Hm Hrest']; subst.
  destruct final as [|p final']; [congruence|].
  destruct (append_or_merge_roles (p :: final') (fst m) (snd m) Hne) as [[H Hlast]|[H Hlast]];
    (apply IH; [intros E; rewrite E in H; simpl in H | rewrite H; simpl; exact Hhd
               | rewrite H | exact Hrest' | rewrite H]).
  - discriminate.
  - exact Hok.
  - exact Hs.
  - destruct (map fst final'); discriminate.
  - apply Forall_app; auto.
  - apply Sorted_snoc; auto. intros y Hy E; subst y. auto.
Qed.

(** (LocalModel.chat) Whatever the messages, the turns [LocalModel.chat]
    gives to [apply_chat_template] are never empty, start with a ["user"]
    turn, never have two adjacent turns with the same role, and contain no
    ["system"] or ["tool"] turn (system text is merged into a user turn, a
    tool result becomes a user turn). *)
Theorem local_chat_turns_shape (msgs : list (string * string)) :
  let T := local_chat_turns msgs in
  hd_error (map fst T) = Some "user"%string /\
  (forall pre a b post, map fst T = pre ++ a :: b :: post -> a <> b) /\
  Forall (fun r => r <> "system"%string /\ r <> "tool"%string) (map fst T).
Proof.
  unfold local_chat_turns.
  pose proof (merge_loop_ok msgs [] [] (Forall_nil _)) as H1.
  destruct (merge_loop msgs [] []) as [merged buf]. simpl in H1.
  set (m1 := match buf with [] => merged | _ => append_or_merge merged "user" (py_join nl buf) end).
  assert (H2 : Forall chat_role_ok (map fst m1)).
  { unfold m1. destruct buf; auto. apply append_or_merge_ok; auto. split; discriminate. }
  clearbody m1.
  set (m2 := match m1 with [] => [("user"%string, ""%string)] | _ => m1 end).
  assert (H3 : Forall chat_role_ok (map fst m2) /\ m2 <> []).
  { unfold m2. destruct m1; split; try discriminate; auto. simpl. constructor; [split; discriminate | constructor]. }
  clearbody m2. destruct H3 as [H3 Hne].
  set (m3 := match m2 with
             | (r, _) :: _ => if String.eqb r "user" then m2 else ("user"%string, "(start)"%string) :: m2
             | [] => m2 end).
  assert (H4 : exists c0 rest, m3 = ("user"%string, c0) :: rest /\ Forall chat_role_ok (map fst m3)).
  { unfold m3. destruct m2 as [|[r c] rest]; [congruence|].
    destruct (String.eqb r "user") eqn:E.
    - apply String.eqb_eq in E; subst r. exists c, rest. auto.
    - exists "(start)"%string, ((r, c) :: rest). split; auto. simpl.
      constructor; [split; discriminate | exact H3]. }
  clearbody m3. destruct H4 as (c0 & rest & -> & H4).
  inversion H4 as [|? ? Hm0 Hrest]; subst.
  destruct (final_fold_shape rest [("user"%string, c0)] "user" ltac:(discriminate) eq_refl
              ltac:(constructor; auto) Hrest ltac:(repeat constructor))
    as (A1 & A2 & A3).
  split; [exact A1|]. split; [|exact A2].
  intros pre a b post E. rewrite E in A3. exact (Sorted_adjacent _ pre a b post A3).
Qed.

(** *** Heartbeat passes *)

Lemma build_context_recall max_tokens mm system_prompt focus_query :
  recall (snd (build_context max_tokens mm system_prompt focus_query)) = recall mm.
Proof.
  cbv beta iota zeta delta [build_context get_core_memory].
  set (mm1 := mkMemory (agent_id mm) (map (fun kb => (fst kb, bump_access (snd kb))) (core mm))
                (recall mm) (archival_index mm)).
  destruct focus_query as [q|].
  2: { destruct (recall_fill _ _ [] 0); reflexivity. }
  destruct (String.eqb q "").
  { destruct (recall_fill _ _ [] 0); reflexivity. }
  destruct (search_archival_store mm1 q 5 None) as (_ & _ & Hr & _).
  destruct (search_archival mm1 q 5 None) as [rs mm2]. cbn [snd] in Hr.
  destruct rs as [|b bs]; [|destruct (_ <? _)];
    destruct (recall_fill _ _ [] 0); cbn; rewrite Hr; reflexivity.
Qed.

Lemma deque_append_ends {A} (n : nat) (xs : list A) (x : A) :
  (1 <= n)%nat -> exists pre, deque_append n xs x = pre ++ [x].
Proof.
  intros Hn. unfold deque_append. destruct (Nat.ltb n (List.length (xs ++ [x]))) eqn:L.
  - destruct xs as [|y ys]; simpl in *.
    + apply Nat.ltb_lt in L. lia.
    + exists ys. reflexivity.
  - exists xs. reflexivity.
Qed.

Lemma deque_append_keeps_last {A} (n : nat) (pre : list A) (x a : A) :
  (2 <= n)%nat -> In x (deque_append n (pre ++ [x]) a).
Proof.
  intros Hn. unfold deque_append. destruct (Nat.ltb n _) eqn:L.
  - apply Nat.ltb_lt in L. rewrite !length_app in L.
    destruct pre as [|p pre']; simpl in L |- *; [lia|].
    apply in_or_app; left; apply in_or_app; right; simpl; auto.
  - apply in_or_app; left; apply in_or_app; right; simpl; auto.
Qed.

Section HeartbeatExtras.

Variable heartbeat_prompt : string -> Z -> string.
Variable local_prompt : string -> string -> string.
Variable build_status_block : HeartbeatProtocol -> string.
Variable llm_chat : list Message -> option (list string) -> PyResult ChatResponse.
Variable tool_json : string -> PyValue -> PyResult string.
Variables start_time finish_time : Q.

Lemma prepare_more hp now :
  let h := prepared_state (prepare_heartbeat heartbeat_prompt local_prompt build_status_block hp now) in
  user_input_queue h = [] /\ last_heartbeat h = Some now /\
  recall (memory h) =
    recall (fold_left add_to_recall (map (fun m => mkMessage user (Some m)) (user_input_queue hp))
              (memory hp)).
Proof.
  unfold prepare_heartbeat.
  match goal with |- context [build_context ?a ?b ?c ?d] =>
    pose proof (build_context_recall a b c d) as HB;
    destruct (build_context a b c d) as [[msgs ctx] mm'] end.
  cbn [snd memory] in HB.
  destruct (last_opt (user_input_queue hp)); cbn;
    destruct (is_local hp); cbn; auto.
Qed.

Lemma process_frame hp r :
  let h := outcome_state (process_response tool_json start_time finish_time hp r) in
  user_input_queue h = user_input_queue hp /\ beat_count h = beat_count hp /\
  last_heartbeat h = last_heartbeat hp /\
  (recall (memory h) = recall (memory hp) \/
   exists a, recall (memory h) = deque_append RECALL_MEMORY_LIMIT (recall (memory hp)) a).
Proof.
  unfold process_response.
  destruct (message r) as [m|]; [|simpl; auto].
  set (hp1 := set_memory hp _).
  assert (K : forall o, outcome_state o = hp1 \/ outcome_state o = set_state hp1 EXECUTING ->
            let h := outcome_state
                       (match o with
                        | Done h => match resp_content m, tool_calls m with
                                    | Some c, [] => if String.eqb c "" then Done h
                                                    else Done (put_output h ("message"%string, c))
                                    | _, _ => Done h end
                        | Raised e h => Raised e h end) in
            user_input_queue h = user_input_queue hp /\ beat_count h = beat_count hp /\
            last_heartbeat h = last_heartbeat hp /\
            (recall (memory h) = recall (memory hp) \/
             exists a, recall (memory h) = deque_append RECALL_MEMORY_LIMIT (recall (memory hp)) a)).
  { intros o Ho. destruct o as [h|e h]; simpl in Ho |- *;
      [destruct (resp_content m) as [c|]; [destruct (tool_calls m); [destruct (String.eqb c "")|]|]|];
      destruct Ho as [-> | ->]; simpl; (split; [reflexivity|]); (split; [reflexivity|]);
      (split; [reflexivity|]); right; eexists; reflexivity. }
  apply K. destruct (tool_calls m) as [|tc tcs]; [left; reflexivity|].
  right. apply run_tool_calls_state.
Qed.

Lemma complete_frame hp msgs ums triggered now :
  let h := outcome_state
             (complete_heartbeat llm_chat tool_json start_time finish_time hp msgs ums triggered now) in
  user_input_queue h = user_input_queue hp /\ beat_count h = beat_count hp /\
  last_heartbeat h = last_heartbeat hp /\
  (recall (memory h) = recall (memory hp) \/
   exists a, recall (memory h) = deque_append RECALL_MEMORY_LIMIT (recall (memory hp)) a).
Proof.
  unfold complete_heartbeat.
  destruct (call_llm_chat _ _ _) as [resp|e].
  - pose proof (process_frame (set_state hp THINKING) resp) as (P1 & P2 & P3 & P4).
    destruct (process_response _ _ _ _ resp) as [h0|e h0]; simpl in P1, P2, P3, P4 |- *.
    + auto.
    + destruct (is_Exception e); simpl; auto.
  - destruct (is_Exception e); simpl; auto.
Qed.

Lemma loop_body_frame hp triggered now (Hrun : stop_event hp = false) :
  let s := heartbeat_loop_body heartbeat_prompt local_prompt build_status_block llm_chat tool_json
             start_time finish_time hp triggered now in
  let R1 := recall (fold_left add_to_recall
                      (map (fun m => mkMessage user (Some m)) (user_input_queue hp)) (memory hp)) in
  (forall h, s <> Exit h) /\
  beat_count (step_state s) = beat_count hp + 1 /\
  user_input_queue (step_state s) = [] /\ last_heartbeat (step_state s) = Some now /\
  (recall (memory (step_state s)) = R1 \/
   exists a, recall (memory (step_state s)) = deque_append RECALL_MEMORY_LIMIT R1 a).
Proof.
  unfold heartbeat_loop_body. simpl (stop_event (clear_request hp)). rewrite Hrun.
  unfold execute_heartbeat.
  pose proof (prepare_fields heartbeat_prompt local_prompt build_status_block (clear_request hp) now)
    as (_ & _ & _ & F4 & _).
  pose proof (prepare_more (clear_request hp) now) as (G1 & G2 & G3).
  destruct (prepare_heartbeat _ _ _ (clear_request hp) now) as [h0|h0 msgs ums];
    simpl in F4, G1, G2, G3.
  - split; [intros h; discriminate|]. simpl. auto.
  - pose proof (complete_frame h0 msgs ums triggered now) as (C1 & C2 & C3 & C4).
    rewrite G3 in C4.
    destruct (complete_heartbeat _ _ _ _ _ _ _ _ _) as [h|e h]; simpl in C1, C2, C3, C4.
    + split; [intros h'; discriminate|]. simpl. rewrite C1, C2, C3, F4, G1, G2. auto.
    + destruct (is_Exception e).
      * split; [intros h'; destruct (HEARTBEAT_MAX_MISSED <=? _); discriminate|].
        destruct (HEARTBEAT_MAX_MISSED <=? _); simpl; rewrite C1, C2, C3, F4, G1, G2; auto.
      * split; [intros h'; discriminate|]. simpl. rewrite C1, C2, C3, F4, G1, G2. auto.
Qed.

(** (HeartbeatProtocol._heartbeat_loop, _execute_heartbeat) Every pass of
    the worker loop that starts with the stop flag clear runs a cycle: the
    beat counter grows by exactly one (also for the skipped idle cycle of a
    local backend and for a cycle an exception escapes), every message queued
    before the pass is taken off the input queue, and [last_heartbeat] is the
    time of this pass. *)
Theorem heartbeat_pass_counts_beat hp triggered now (Hrun : stop_event hp = false) :
  let s := heartbeat_loop_body heartbeat_prompt local_prompt build_status_block llm_chat tool_json
             start_time finish_time hp triggered now in
  (forall h, s <> Exit h) /\
  beat_count (step_state s) = beat_count hp + 1 /\
  user_input_queue (step_state s) = [] /\ last_heartbeat (step_state s) = Some now.
Proof.
  destruct (loop_body_frame hp triggered now Hrun) as (A & B & C & D & _). auto.
Qed.

(** (HeartbeatProtocol.send_user_input, _heartbeat_loop) After
    [send_user_input(message)] the wake flag is set, so the worker's wait
    returns at once; if the scheduler is not stopped, the next pass takes the
    message off the input queue and records it in the recall buffer as a user
    message, which is still there when the pass ends. *)
Theorem send_user_input_processed hp m now (Hrun : stop_event hp = false) :
  wait_blocks_for (send_user_input hp m) = 0 /\
  let s := heartbeat_loop_body heartbeat_prompt local_prompt build_status_block llm_chat tool_json
             start_time finish_time (send_user_input hp m) true now in
  (forall h, s <> Exit h) /\
  user_input_queue (step_state s) = [] /\
  In (mkMessage user (Some m)) (recall (memory (step_state s))).
Proof.
  split; [reflexivity|].
  destruct (loop_body_frame (send_user_input hp m) true now Hrun) as (A & _ & C & _ & E).
  split; [exact A|]. split; [exact C|].
  cbn [user_input_queue memory send_user_input] in E.
  rewrite map_app, fold_left_app in E. cbn [map fold_left] in E.
  set (x := mkMessage user (Some m)) in *.
  destruct (deque_append_ends RECALL_MEMORY_LIMIT
              (recall (fold_left add_to_recall (map (fun m0 => mkMessage user (Some m0)) (user_input_queue hp))
                         (memory hp))) x ltac:(unfold RECALL_MEMORY_LIMIT; lia)) as [pre Hpre].
  cbn [recall add_to_recall] in E. rewrite Hpre in E.
  destruct E as [E|[a E]]; rewrite E.
  - apply in_or_app; right; simpl; auto.
  - apply deque_append_keeps_last. unfold RECALL_MEMORY_LIMIT; lia.
Qed.

(** (HeartbeatProtocol._execute_heartbeat) A pass of a local backend with no
    queued input takes the early [return]: the beat counter grows by one, but
    the state stays [HEARTBEAT] (it is not set back to [IDLE]), [missed_beats]
    is not reset, and neither the history nor the output queue changes. *)
Theorem local_idle_pass hp triggered now (Hrun : stop_event hp = false)
    (Hl : is_local hp = true) (Hq : user_input_queue hp = []) :
  exists h,
    heartbeat_loop_body heartbeat_prompt local_prompt build_status_block llm_chat tool_json
      start_time finish_time hp triggered now = Continue h /\
    hb_state h = HEARTBEAT /\ missed_beats h = missed_beats hp /\
    beat_count h = beat_count hp + 1 /\
    heartbeat_history h = heartbeat_history hp /\ output_queue h = output_queue hp.
Proof.
  unfold heartbeat_loop_body. simpl (stop_event (clear_request hp)). rewrite Hrun.
  unfold execute_heartbeat.
  destruct (prepare_noop_iff heartbeat_prompt local_prompt build_status_block (clear_request hp) now Hl Hq)
    as [h Hp].
  pose proof (prepare_fields heartbeat_prompt local_prompt build_status_block (clear_request hp) now)
    as (F1 & _ & F3 & F4 & F5 & F6 & _).
  rewrite Hp in F1, F3, F4, F5, F6 |- *. cbn in F1, F3, F4, F5, F6.
  exists h. repeat split; assumption.
Qed.

End HeartbeatExtras.

Lemma heartbeat_pass_counts_beat_witness :
  stop_event (example_hp false true ["hello"%string]) = false /\
  let hp := example_hp false true ["hello"%string] in
  let s := heartbeat_loop_body sample_heartbeat_prompt sample_local_prompt sample_status_block
             (failing_backend ExceptionClass "ResponseError") sample_json 0 0 hp true "now" in
  (forall h, s <> Exit h) /\
  beat_count (step_state s) = beat_count hp + 1 /\
  user_input_queue (step_state s) = [] /\ last_heartbeat (step_state s) = Some "now"%string.
Proof.
  split; [reflexivity|].
  exact (heartbeat_pass_counts_beat sample_heartbeat_prompt sample_local_prompt sample_status_block
           (failing_backend ExceptionClass "ResponseError") sample_json 0 0
           (example_hp false true ["hello"%string]) true "now" eq_refl).
Defined.

Lemma send_user_input_processed_witness :
  stop_event (example_hp false false []) = false /\
  let hp := example_hp false false [] in
  wait_blocks_for (send_user_input hp "hello") = 0 /\
  let s := heartbeat_loop_body sample_heartbeat_prompt sample_local_prompt sample_status_block
             (failing_backend ExceptionClass "ResponseError") sample_json 0 0
             (send_user_input hp "hello") true "now" in
  (forall h, s <> Exit h) /\
  user_input_queue (step_state s) = [] /\
  In (mkMessage user (Some "hello"%string)) (recall (memory (step_state s))).
Proof.
  split; [reflexivity|].
  exact (send_user_input_processed sample_heartbeat_prompt sample_local_prompt sample_status_block
           (failing_backend ExceptionClass "ResponseError") sample_json 0 0
           (example_hp false false []) "hello" "now" eq_refl).
Defined.

Lemma local_idle_pass_witness :
  stop_event (example_hp true false []) = false /\
  is_local (example_hp true false []) = true /\
  user_input_queue (example_hp true false []) = [] /\
  let hp := example_hp true false [] in
  exists h,
    heartbeat_loop_body sample_heartbeat_prompt sample_local_prompt sample_status_block
      (failing_backend ExceptionClass "ResponseError") sample_json 0 0 hp true "now" = Continue h /\
    hb_state h = HEARTBEAT /\ missed_beats h = missed_beats hp /\
    beat_count h = beat_count hp + 1 /\
    heartbeat_history h = heartbeat_history hp /\ output_queue h = output_queue hp.
Proof.
  split; [reflexivity|]. split; [reflexivity|]. split; [reflexivity|].
  exact (local_idle_pass sample_heartbeat_prompt sample_local_prompt sample_status_block
           (failing_backend ExceptionClass "ResponseError") sample_json 0 0
           (example_hp true false []) true "now" eq_refl eq_refl eq_refl).
Defined.
